(** * The [req] package: a shallow embedding and its properties

    The Go package [req] wraps [net/http]: a [Request] value carries four
    options, [request] builds and sends one HTTP request, [logger] renders
    the exchange as a curl command line, and [Unmarshal] decodes a JSON
    body and decorates syntax errors with the input.

    Go strings and byte slices are both sequences of bytes; they are
    modelled by [string] (a list of [ascii], one per byte), so that the
    conversions [string(b)] and [[]byte(s)] are the identity.  Go's [int]
    and [int64] are modelled by [Z]; the only arithmetic the package does
    on them ([Offset-1]) has its wrap-around written out. *)

From Stdlib Require Import ZArith String Ascii List Lia DecimalString Bool.
Import ListNotations.
Open Scope string_scope.

(** ** Bytes that a Rocq string literal cannot hold directly *)

Definition LF : string := String (ascii_of_nat 10) "".
Definition CR : string := String (ascii_of_nat 13) "".
Definition TAB : string := String (ascii_of_nat 9) "".
Definition DQUOTE : string := String (ascii_of_nat 34) "".
Definition BACKSLASH : string := String (ascii_of_nat 92) "".
Definition CRLF : string := CR ++ LF.

(** ** Strings as byte sequences *)

Module Str.

(** [s[n:]] for an index already known to be in range. *)
Fixpoint drop (n : nat) (s : string) : string :=
  match n, s with
  | O, _ => s
  | S n', String _ s' => drop n' s'
  | S _, EmptyString => EmptyString
  end.

(** [s[:n]]. *)
Fixpoint take (n : nat) (s : string) : string :=
  match n, s with
  | O, _ => EmptyString
  | S n', String a s' => String a (take n' s')
  | S _, EmptyString => EmptyString
  end.

(** [sub] occurs in [s] as a contiguous run of bytes. *)
Definition Substring (sub s : string) : Prop :=
  exists pre post, s = pre ++ sub ++ post.

(** Go's [strings.Contains], by trying every position. *)
Fixpoint containsb (s sub : string) : bool :=
  prefix sub s ||
  match s with
  | EmptyString => false
  | String _ s' => containsb s' sub
  end.

(** The byte [a] occurs in [s]. *)
Definition HasByte (a : ascii) (s : string) : Prop :=
  exists i, get i s = Some a.

End Str.

(** ** Errors

    Go's [error] is an interface; the package tells its dynamic types apart
    with a type assertion, so the model is a tagged union of the error
    values that can flow through the package. *)

(** [*json.SyntaxError]: a message and the number of bytes read before the
    error. *)
Record json_SyntaxError : Type := mk_json_SyntaxError
  { msg : string; Offset : Z }.

Inductive error : Type :=
| errorString (text : string)
    (** [errors.New] and [fmt.Errorf] *)
| EOF
    (** [io.EOF] *)
| JsonSyntax (e : json_SyntaxError)
    (** a [*json.SyntaxError] *)
| SyntaxError (e : json_SyntaxError) (input : string)
    (** the package's own [SyntaxError{e, input}] *)
| otherError (description : string).
    (** any other dynamic type: transport, URL, JSON type errors *)

(** ** Machine integers *)

Definition wrap64 (z : Z) : Z := ((z + 2 ^ 63) mod 2 ^ 64 - 2 ^ 63)%Z.

(** [int64] subtraction. *)
Definition sub64 (a b : Z) : Z := wrap64 (a - b).

(** [%d] of an integer. *)
Definition itoa (z : Z) : string := NilZero.string_of_int (Z.to_int z).

(** ** Configuration *)

Definition JSONContentType : string := "application/json".
Definition URLEncodededContentType : string := "application/x-www-form-urlencoded".

(** [time.Second], in nanoseconds. *)
Definition time_Second : Z := 1000000000.

Record Request : Type := mkRequest
  { curl : bool;
    curlHeader : bool;
    timeout : Z;
    skipRedirects : bool }.

Definition RequestFunc : Type := Request -> Request.

Definition New (options : list RequestFunc) : Request :=
  let r := {| curl := false; curlHeader := false;
              timeout := (30 * time_Second)%Z; skipRedirects := false |} in
  fold_left (fun r opt => opt r) options r.

Definition Curl (b : bool) : RequestFunc :=
  fun r => {| curl := b; curlHeader := curlHeader r;
              timeout := timeout r; skipRedirects := skipRedirects r |}.

Definition CurlHeader (b : bool) : RequestFunc :=
  fun r => {| curl := curl r; curlHeader := b;
              timeout := timeout r; skipRedirects := skipRedirects r |}.

Definition Timeout (d : Z) : RequestFunc :=
  fun r => {| curl := curl r; curlHeader := curlHeader r;
              timeout := d; skipRedirects := skipRedirects r |}.

Definition SkipRedirects (b : bool) : RequestFunc :=
  fun r => {| curl := curl r; curlHeader := curlHeader r;
              timeout := timeout r; skipRedirects := b |}.

(** ** Outcome classifier *)

Definition http_StatusOK : Z := 200.
Definition http_StatusIMUsed : Z := 226.

Definition IsSuccess (statusCode : Z) : bool :=
  ((statusCode >=? http_StatusOK) && (statusCode <=? http_StatusIMUsed))%Z.

(** ** Streams read to their end

    A stream handed to [ioutil.ReadAll] is determined by what that call
    sees: the bytes up to the end of the stream, or the bytes up to the
    first read error, the error, and what the stream does when it is read
    again. *)

Inductive Stream : Type :=
| Ends (data : string)
| Breaks (data : string) (e : error) (rest : Stream).

(** [ioutil.ReadAll]: the bytes read, the error ([None] at end of stream),
    and the stream as it is left. *)
Definition ioutil_ReadAll (s : Stream) : string * option error * Stream :=
  match s with
  | Ends data => (data, None, Ends "")
  | Breaks data e rest => (data, Some e, rest)
  end.

(** ** The JSON decode adapter *)

(** [e.input[lo:]] panics unless [0 <= lo <= len(e.input)]; [None] stands
    for the panic. *)
Definition slice_from (s : string) (lo : Z) : option string :=
  if ((0 <=? lo) && (lo <=? Z.of_nat (String.length s)))%Z
  then Some (Str.drop (Z.to_nat lo) s)
  else None.

(** [SyntaxError.Error]. *)
Definition SyntaxError_Error (e : json_SyntaxError) (input : string)
  : option string :=
  match slice_from input (sub64 (Offset e) 1) with
  | Some tail => Some ("syntax error near: `" ++ tail ++ "`")
  | None => None
  end.

Section Decode.

(** The decode target and the codec are the caller's and the standard
    library's: [json.Unmarshal data v] leaves a target and an error. *)
Variable Target : Type.
Variable json_Unmarshal : string -> Target -> Target * option error.

(** [Unmarshal]: the target as it is left and the error returned. *)
Definition Unmarshal (body : Stream) (v : Target) : Target * option error :=
  let '(data, err, _) := ioutil_ReadAll body in
  match err with
  | Some e => (v, Some e)
  | None =>
      let '(v', err) := json_Unmarshal data v in
      match err with
      | Some (JsonSyntax e) => (v', Some (SyntaxError e data))
      | _ => (v', err)
      end
  end.

End Decode.

Arguments Unmarshal {Target} json_Unmarshal body v.


(** ** Readers consumed one [Read] at a time

    An [io.Reader] is an object with hidden state; [Read] with a buffer of
    [n] bytes gives the bytes read and an error, and moves the state. *)

Record Reader : Type := mkReader
  { reader_state : Type;
    reader_now : reader_state;
    reader_step : reader_state -> nat -> string * option error * reader_state }.

Definition Read (r : Reader) (n : nat) : string * option error * Reader :=
  let '(p, err, s') := reader_step r (reader_now r) n in
  (p, err, mkReader (reader_state r) s' (reader_step r)).

(** [strings.Reader.Read]: at the end of the string it reports [io.EOF],
    before it copies as much of the rest as the buffer takes. *)
Definition strings_Reader_Read (st : string * nat) (n : nat)
  : string * option error * (string * nat) :=
  let '(s, i) := st in
  if (String.length s <=? i)%nat then ("", Some EOF, (s, i))
  else
    let p := Str.take n (Str.drop i s) in
    (p, None, (s, (i + String.length p)%nat)).

(** The reader over [s] whose read index is [i]. *)
Definition strings_Reader_at (s : string) (i : nat) : Reader :=
  mkReader (string * nat) (s, i) strings_Reader_Read.

Definition strings_NewReader (s : string) : Reader := strings_Reader_at s 0.

(** The contents of a [bytes.Buffer]. *)
Definition Buffer : Type := string.

(** [io.TeeReader(r, w)]: the reader and the buffer it writes to.  The
    buffer is the local [buf] of [request]; nothing else touches it while
    the request body is being read, so the tee carries its contents. *)
Record teeReader : Type := mk_teeReader
  { tee_r : Reader; tee_w : Buffer }.

Definition io_TeeReader (r : Reader) (w : Buffer) : teeReader :=
  {| tee_r := r; tee_w := w |}.

(** [teeReader.Read]: what the reader gives is written to the buffer and
    handed on; [bytes.Buffer.Write] never fails. *)
Definition teeReader_Read (t : teeReader) (n : nat)
  : string * option error * teeReader :=
  let '(p, err, r') := Read (tee_r t) n in
  if (0 <? String.length p)%nat
  then (p, err, {| tee_r := r'; tee_w := tee_w t ++ p |})
  else (p, err, {| tee_r := r'; tee_w := tee_w t |}).

(** Reading a request body with buffers of the given sizes until a read
    reports an error: the bytes received, the error, and the tee as it is
    left; [None] when the sizes run out first. *)
Fixpoint drain (sizes : list nat) (t : teeReader) (got : string)
  : option (string * error * teeReader) :=
  match sizes with
  | [] => None
  | n :: sizes' =>
      let '(p, err, t') := teeReader_Read t n in
      match err with
      | Some e => Some (got ++ p, e, t')
      | None => drain sizes' t' (got ++ p)
      end
  end.

(** ** HTTP messages *)

(** [http.Header] is a map from names to value lists; the list keeps the
    order in which [range] visits it, names occur once. *)
Definition http_Header : Type := list (string * list string).

(** [Header.Set] for a name already in canonical form. *)
Definition Header_Set (h : http_Header) (key value : string) : http_Header :=
  if existsb (fun kv => fst kv =? key) h
  then map (fun kv => if fst kv =? key then (key, [value]) else kv) h
  else (h ++ [(key, [value])])%list.

Record Response : Type := mkResponse
  { StatusCode : Z;
    Proto : string;
    Status : string;
    resp_Header : http_Header;
    resp_Body : Stream }.

Definition with_Body (resp : Response) (b : Stream) : Response :=
  {| StatusCode := StatusCode resp; Proto := Proto resp;
     Status := Status resp; resp_Header := resp_Header resp;
     resp_Body := b |}.

(** [http.Client]: the timeout and the redirect hook.  The only hook the
    package installs ignores its arguments and returns a fixed error, so
    the hook is modelled by the error it returns. *)
Record http_Client : Type := mk_http_Client
  { client_Timeout : Z; CheckRedirect : option error }.

(** What the transport does with a request: it may read the request body,
    any number of times with buffers of any size, and ends with a response
    or an error. *)
Inductive RoundTrip : Type :=
| Responds (resp : Response)
| Fails (err : error)
| ReadsBody (n : nat) (k : string -> option error -> RoundTrip).

(** The transport served against the request body: every read it asks for
    goes through the tee.  [sent] records the bytes handed to the
    transport; a request without a body reads as [http.NoBody]. *)
Fixpoint serve (t : RoundTrip) (body : option teeReader) (sent : string)
  : (Response + error) * option teeReader * string :=
  match t with
  | Responds resp => (inl resp, body, sent)
  | Fails err => (inr err, body, sent)
  | ReadsBody n k =>
      match body with
      | None => serve (k "" (Some EOF)) None sent
      | Some tee =>
          let '(p, err, tee') := teeReader_Read tee n in
          serve (k p err) (Some tee') (sent ++ p)
      end
  end.

(** The same transport served by the reader itself, without a tee. *)
Fixpoint serve_direct (t : RoundTrip) (r : Reader) (sent : string)
  : (Response + error) * Reader * string :=
  match t with
  | Responds resp => (inl resp, r, sent)
  | Fails err => (inr err, r, sent)
  | ReadsBody n k =>
      let '(p, err, r') := Read r n in
      serve_direct (k p err) r' (sent ++ p)
  end.

(** ** What the package takes from the standard library and the network *)

Class Platform : Type :=
  { (** [*url.URL], [url.Parse] and [URL.String] *)
    url_URL : Type;
    url_Parse : string -> url_URL + error;
    URL_String : url_URL -> string;
    (** the method check of [http.NewRequest] and [%q] of its message *)
    validMethod : string -> bool;
    strconv_Quote : string -> string;
    (** [url.Values] and [Values.Encode] *)
    url_Values : Type;
    Values_Encode : url_Values -> string;
    (** [http.Client.Do], as what it does for a client, a method, a URL,
        the headers and the presence of a body *)
    transport : http_Client -> string -> url_URL -> http_Header -> bool
                -> RoundTrip;
    (** [Response.Write] into a buffer, for a response and its body bytes *)
    Response_Write : Response -> string -> string + error;
    (** [json.Indent src prefix indent]: the output and the error *)
    json_Indent : string -> string -> string -> string * option error;
    strings_TrimSpace : string -> string }.

Section Executor.

Context {P : Platform}.

Record http_Request : Type := mk_http_Request
  { Method : string;
    req_URL : url_URL;
    req_Header : http_Header;
    req_Body : option teeReader }.

(** [http.NewRequest]: an empty method means GET, the method is checked,
    the URL is parsed; the header map starts empty. *)
Definition http_NewRequest (method url : string) (body : option teeReader)
  : http_Request + error :=
  let method := if method =? "" then "GET" else method in
  if negb (validMethod method)
  then inr (errorString ("net/http: invalid method " ++ strconv_Quote method))
  else
    match url_Parse url with
    | inr e => inr e
    | inl u => inl {| Method := method; req_URL := u;
                      req_Header := []; req_Body := body |}
    end.

Definition set_Header (req : http_Request) (key value : string)
  : http_Request :=
  {| Method := Method req; req_URL := req_URL req;
     req_Header := Header_Set (req_Header req) key value;
     req_Body := req_Body req |}.

(** [client.Do(req)]: the result, and the request with its body as the
    transport left it. *)
Definition client_Do (client : http_Client) (req : http_Request)
  : (Response + error) * http_Request :=
  let t := transport client (Method req) (req_URL req) (req_Header req)
             (match req_Body req with Some _ => true | None => false end) in
  let '(res, body', _) := serve t (req_Body req) "" in
  (res, {| Method := Method req; req_URL := req_URL req;
           req_Header := req_Header req; req_Body := body' |}).

(** [httputil.DumpResponse(resp, true)]: the body is read to its end and
    put back as a fresh copy, then the response is written out; when the
    read fails the body stays as the read left it. *)
Definition httputil_DumpResponse (resp : Response)
  : (string + error) * Response :=
  let '(data, err, rest) := ioutil_ReadAll (resp_Body resp) in
  match err with
  | Some e => (inr e, with_Body resp rest)
  | None => (Response_Write resp data, with_Body resp (Ends data))
  end.

(** [bytes.Index]. *)
Fixpoint bytes_Index (s sep : string) : option nat :=
  if prefix sep s then Some O
  else match s with
       | EmptyString => None
       | String _ s' => option_map S (bytes_Index s' sep)
       end.

(** [bytes.SplitN(s, sep, n)] for a separator that is not empty and a
    count that is not negative: at most [n] pieces, the last one the
    unsplit remainder. *)
Fixpoint bytes_SplitN (s sep : string) (n : nat) : list string :=
  match n with
  | O => []
  | S O => [s]
  | S n' =>
      match bytes_Index s sep with
      | None => [s]
      | Some m =>
          Str.take m s :: bytes_SplitN (Str.drop (m + String.length sep) s) sep n'
      end
  end.

Fixpoint strings_Repeat (s : string) (count : nat) : string :=
  match count with
  | O => ""
  | S count' => s ++ strings_Repeat s count'
  end.

(** [bytes.Buffer.WriteString]. *)
Definition WriteString (buf : Buffer) (s : string) : Buffer := buf ++ s.

Definition indentJSON (b : string) : string * option error :=
  json_Indent b "" "   ".

(** The [range r.Header] loop of [logger]; [v[0]] of an empty value list
    is a run-time panic, [None]. *)
Fixpoint header_clauses (h : http_Header) (indent : string) (buf : Buffer)
  : option Buffer :=
  match h with
  | [] => Some buf
  | (n, v) :: h' =>
      match v with
      | [] => None
      | v0 :: _ =>
          let buf := WriteString buf indent in
          let buf := WriteString buf "-H'" in
          let buf := WriteString buf n in
          let buf := WriteString buf ": " in
          let buf := WriteString buf v0 in
          let buf := WriteString buf ("' " ++ BACKSLASH ++ LF) in
          header_clauses h' indent buf
      end
  end.

(** The first lines of the trace: the command and its flags. *)
Definition curl_command (c : Request) (method : string) : Buffer :=
  let buf := LF ++ "curl -sS" in
  let buf := if skipRedirects c then WriteString buf " -L" else buf in
  let buf := WriteString buf " -X" in
  let buf := WriteString buf method in
  WriteString buf (" " ++ BACKSLASH ++ LF).

(** The response part of the trace, for a dump that was split in two. *)
Definition response_trace (c : Request) (resp : Response)
  (header body : string) (buf : Buffer) : Buffer :=
  let buf := WriteString buf (LF ++ LF) in
  let buf :=
    if curlHeader c then
      let buf := WriteString buf header in
      WriteString buf (LF ++ LF)
    else
      let buf := WriteString buf (Proto resp) in
      let buf := WriteString buf " " in
      let buf := WriteString buf (Status resp) in
      WriteString buf LF in
  let buf :=
    match indentJSON body with
    | (_, Some _) => WriteString buf body
    | (json, None) => WriteString buf json
    end in
  WriteString buf LF.

(** [logger]: the response as [DumpResponse] leaves it and the log with
    the record printed; [None] is a run-time panic. *)
Definition logger (c : Request) (r : http_Request) (resp : Response)
  (data : option Stream) (log : list string)
  : option (Response * list string) :=
  if negb (curl c) && negb (curlHeader c) then Some (resp, log)
  else
    let indent := strings_Repeat " " 4 in
    let buf := curl_command c (Method r) in
    match header_clauses (req_Header r) indent buf with
    | None => None
    | Some buf =>
        let buf :=
          match data with
          | Some d =>
              let '(b, err, _) := ioutil_ReadAll d in
              match err with
              | None =>
                  let str := b in
                  if str =? "" then buf
                  else
                    let buf := WriteString buf indent in
                    let buf := WriteString buf "-d'" in
                    let buf := WriteString buf (strings_TrimSpace str) in
                    WriteString buf ("' " ++ BACKSLASH ++ LF)
              | Some _ => buf
              end
          | None => buf
          end in
        let buf := WriteString buf indent in
        let buf := WriteString buf DQUOTE in
        let buf := WriteString buf (URL_String (req_URL r)) in
        let buf := WriteString buf DQUOTE in
        let '(dump, resp) := httputil_DumpResponse resp in
        let buf :=
          match dump with
          | inl dump =>
              match bytes_SplitN dump (CRLF ++ CRLF) 2 with
              | header :: body :: _ => response_trace c resp header body buf
              | _ => buf
              end
          | inr _ => buf
          end in
        Some (resp, (log ++ [buf])%list)
    end.

(** What [request] returns: the response, the error, and the log. *)
Definition Outcome : Type := option Response * option error * list string.

(** Lines 138-162 of [request]: the request and the client. *)
Definition request_build (c : Request) (method url contentType : string)
  (data : option Reader) : (http_Client * http_Request) + error :=
  let buf : Buffer := "" in
  let made :=
    match data with
    | Some data => http_NewRequest method url (Some (io_TeeReader data buf))
    | None => http_NewRequest method url None
    end in
  match made with
  | inr err => inr err
  | inl req =>
      let req :=
        if negb (contentType =? "")
        then set_Header req "Content-Type" contentType
        else req in
      let client :=
        {| client_Timeout := timeout c;
           CheckRedirect :=
             if skipRedirects c
             then Some (errorString "Skip redirects") else None |} in
      inl (client, req)
  end.

(** The capture buffer of [request] after the transport call. *)
Definition capture (req : http_Request) : Buffer :=
  match req_Body req with
  | Some tee => tee_w tee
  | None => ""
  end.

(** Lines 170-172 of [request]: the trace, when one of the two flags asks
    for it, reads the capture buffer. *)
Definition request_trace (c : Request) (req : http_Request) (resp : Response)
  (log : list string) : option (Response * list string) :=
  let buf := capture req in
  if curl c || curlHeader c
  then logger c req resp (Some (Ends buf)) log
  else Some (resp, log).

(** Lines 164-186 of [request]; [None] is a run-time panic. *)
Definition request_send (c : Request) (client : http_Client)
  (req : http_Request) (log : list string) : option Outcome :=
  let '(res, req) := client_Do client req in
  match res with
  | inr err => Some (None, Some err, log)
  | inl resp =>
      match request_trace c req resp log with
      | None => None
      | Some (resp, log) =>
          if ((StatusCode resp >=? http_StatusOK)
              && (StatusCode resp <=? http_StatusIMUsed))%Z
          then Some (Some resp, None, log)
          else
            let '(body, err, _) := ioutil_ReadAll (resp_Body resp) in
            match err with
            | Some err => Some (None, Some err, log)
            | None =>
                Some (None,
                      Some (errorString
                              ("Error making HTTP request.  HTTP Status "
                               ++ itoa (StatusCode resp) ++ ": " ++ body)),
                      log)
            end
      end
  end.

(** [request]. *)
Definition request (c : Request) (method url contentType : string)
  (data : option Reader) (log : list string) : option Outcome :=
  match request_build c method url contentType data with
  | inr err => Some (None, Some err, log)
  | inl (client, req) => request_send c client req log
  end.

Definition http_MethodGet : string := "GET".
Definition http_MethodHead : string := "HEAD".
Definition http_MethodPost : string := "POST".
Definition http_MethodPut : string := "PUT".
Definition http_MethodDelete : string := "DELETE".

Definition Get (c : Request) (url : string) (log : list string)
  : option Outcome :=
  request c http_MethodGet url "" None log.

Definition Head (c : Request) (url : string) (log : list string)
  : option Outcome :=
  request c http_MethodHead url "" None log.

Definition Delete (c : Request) (url : string) (log : list string)
  : option Outcome :=
  request c http_MethodDelete url "" None log.

Definition Post (c : Request) (url : string) (values : url_Values)
  (log : list string) : option Outcome :=
  request c http_MethodPost url URLEncodededContentType
    (Some (strings_NewReader (Values_Encode values))) log.

Definition Put (c : Request) (url : string) (values : url_Values)
  (log : list string) : option Outcome :=
  request c http_MethodPost url URLEncodededContentType
    (Some (strings_NewReader (Values_Encode values))) log.

End Executor.

(** * A platform to run the package on

    Models of the standard-library functions the package calls, and a
    small server behind the transport.  The properties of the package are
    proved for every [Platform]; this one gives them concrete inputs. *)

Module Go.

Definition byte_of (c : ascii) : nat := nat_of_ascii c.

Definition between (lo hi : nat) (c : ascii) : bool :=
  ((lo <=? byte_of c) && (byte_of c <=? hi))%nat.

Definition isDigit (c : ascii) : bool := between 48 57 c.

Definition isAlnum (c : ascii) : bool :=
  isDigit c || between 65 90 c || between 97 122 c.

Definition isByte (c : ascii) (s : string) : bool :=
  match s with
  | String a EmptyString => Ascii.eqb c a
  | _ => false
  end.

Definition upperhex (n : nat) : string :=
  Str.take 1 (Str.drop n "0123456789ABCDEF").

(** [url.QueryEscape]: letters, digits and [-_.~] stay, a space becomes
    [+], every other byte becomes [%] and two hexadecimal digits. *)
Fixpoint url_QueryEscape (s : string) : string :=
  match s with
  | EmptyString => ""
  | String c s' =>
      (if isAlnum c || isByte c "-" || isByte c "_" || isByte c "." || isByte c "~"
       then String c ""
       else if isByte c " " then "+"
       else "%" ++ upperhex (byte_of c / 16) ++ upperhex (byte_of c mod 16))
      ++ url_QueryEscape s'
  end.

(** [url.Values]: a map from keys to value lists, as a list of entries
    with distinct keys. *)
Definition Values : Type := list (string * list string).

Fixpoint insert_sorted (kv : string * list string) (l : Values) : Values :=
  match l with
  | [] => [kv]
  | kv' :: l' =>
      if (fst kv <=? fst kv')%string then kv :: l
      else kv' :: insert_sorted kv l'
  end.

Definition sort_keys (v : Values) : Values :=
  fold_right insert_sorted [] v.

(** The [key=value] pairs of one key, each one after an [&] unless the
    buffer is empty. *)
Fixpoint encode_key (keyEscaped : string) (vs : list string) (buf : string)
  : string :=
  match vs with
  | [] => buf
  | v :: vs' =>
      let buf := if buf =? "" then buf else buf ++ "&" in
      encode_key keyEscaped vs' (buf ++ keyEscaped ++ "=" ++ url_QueryEscape v)
  end.

(** [Values.Encode]: the keys in sorted order. *)
Definition Encode (v : Values) : string :=
  fold_left (fun buf kv => encode_key (url_QueryEscape (fst kv)) (snd kv) buf)
    (sort_keys v) "".

(** ASCII white space, as [strings.TrimSpace] sees it. *)
Definition isSpaceASCII (c : ascii) : bool :=
  between 9 13 c || isByte c " ".

Fixpoint trimLeft (s : string) : string :=
  match s with
  | EmptyString => ""
  | String c s' => if isSpaceASCII c then trimLeft s' else s
  end.

Fixpoint trimRight (s : string) : string :=
  match s with
  | EmptyString => ""
  | String c s' =>
      match trimRight s' with
      | EmptyString => if isSpaceASCII c then "" else String c ""
      | t => String c t
      end
  end.

(** [strings.TrimSpace] on ASCII text. *)
Definition TrimSpace (s : string) : string := trimRight (trimLeft s).

Fixpoint allb (f : ascii -> bool) (s : string) : bool :=
  match s with
  | EmptyString => true
  | String c s' => f c && allb f s'
  end.

(** URLs are kept as their text; parsing rejects control bytes. *)
Definition Parse (url : string) : string + error :=
  if allb (fun c => negb (between 0 31 c || between 127 127 c)) url
  then inl url
  else inr (otherError "net/url: invalid control character in URL").

(** Methods are made of letters and digits here. *)
Definition validMethod (method : string) : bool :=
  negb (method =? "") && allb isAlnum method.

Definition Quote (s : string) : string := DQUOTE ++ s ++ DQUOTE.

Fixpoint lower (s : string) : string :=
  match s with
  | EmptyString => ""
  | String c s' =>
      String (if between 65 90 c then ascii_of_nat (byte_of c + 32) else c)
        (lower s')
  end.

(** The operation named by a [*url.Error] of the client: [Get] for GET. *)
Definition urlErrorOp (method : string) : string :=
  match method with
  | EmptyString => "Get"
  | String c rest => String c (lower rest)
  end.

(** The text of the [*url.Error] that wraps [text] for a request. *)
Definition url_Error (method url text : string) : error :=
  otherError (urlErrorOp method ++ " " ++ Quote url ++ ": " ++ text).

Fixpoint write_headers (h : http_Header) : string :=
  match h with
  | [] => ""
  | (n, vs) :: h' =>
      fold_right (fun v acc => n ++ ": " ++ v ++ CRLF ++ acc) "" vs
      ++ write_headers h'
  end.

(** [Response.Write] for a response of known length. *)
Definition writeResponse (resp : Response) (body : string) : string + error :=
  inl (Proto resp ++ " " ++ Status resp ++ CRLF
       ++ write_headers (resp_Header resp) ++ CRLF ++ body).

End Go.

(** ** The scanner of [encoding/json]

    [json.Indent] and the validity check of [json.Unmarshal] both run this
    byte-at-a-time state machine. *)

Module Json.

Import Go.

Inductive parse : Type :=
| parseObjectKey | parseObjectValue | parseArrayValue.

Inductive code : Type :=
| scanContinue | scanBeginLiteral | scanBeginObject | scanObjectKey
| scanObjectValue | scanEndObject | scanBeginArray | scanArrayValue
| scanEndArray | scanSkipSpace | scanEnd | scanError.

Inductive state : Type :=
| stateBeginValueOrEmpty | stateBeginValue | stateBeginStringOrEmpty
| stateBeginString | stateEndValue | stateEndTop
| stateInString | stateInStringEsc | stateInStringEscU
| stateInStringEscU1 | stateInStringEscU12 | stateInStringEscU123
| stateNeg | state1 | state0 | stateDot | stateDot0
| stateE | stateESign | stateE0
| stateT | stateTr | stateTru
| stateF | stateFa | stateFal | stateFals
| stateN | stateNu | stateNul
| stateError.

(** The parse stack has its top at the head. *)
Record scanner : Type := mk_scanner
  { sc_step : state;
    sc_endTop : bool;
    sc_parseState : list parse;
    sc_err : option json_SyntaxError;
    sc_bytes : Z }.

Definition maxNestingDepth : Z := 10000.

Definition reset : scanner :=
  {| sc_step := stateBeginValue; sc_endTop := false; sc_parseState := [];
     sc_err := None; sc_bytes := 0 |}.

Definition goto (s : scanner) (st : state) : scanner :=
  {| sc_step := st; sc_endTop := sc_endTop s;
     sc_parseState := sc_parseState s; sc_err := sc_err s;
     sc_bytes := sc_bytes s |}.

Definition set_parseState (s : scanner) (ps : list parse) : scanner :=
  {| sc_step := sc_step s; sc_endTop := sc_endTop s; sc_parseState := ps;
     sc_err := sc_err s; sc_bytes := sc_bytes s |}.

Definition count_byte (s : scanner) : scanner :=
  {| sc_step := sc_step s; sc_endTop := sc_endTop s;
     sc_parseState := sc_parseState s; sc_err := sc_err s;
     sc_bytes := (sc_bytes s + 1)%Z |}.

(** [quoteChar], for printable bytes. *)
Definition quoteChar (c : ascii) : string :=
  if isByte c "'" then "'" ++ BACKSLASH ++ "''"
  else if isByte c BACKSLASH then "'" ++ BACKSLASH ++ BACKSLASH ++ "'"
  else "'" ++ String c "" ++ "'".

Definition fail (s : scanner) (c : ascii) (context : string)
  : scanner * code :=
  ({| sc_step := stateError; sc_endTop := sc_endTop s;
      sc_parseState := sc_parseState s;
      sc_err := Some {| msg := "invalid character " ++ quoteChar c
                               ++ " " ++ context;
                        Offset := sc_bytes s |};
      sc_bytes := sc_bytes s |}, scanError).

Definition pushParseState (s : scanner) (c : ascii) (newParseState : parse)
  (successState : code) : scanner * code :=
  let s := set_parseState s (newParseState :: sc_parseState s) in
  if (Z.of_nat (List.length (sc_parseState s)) <=? maxNestingDepth)%Z
  then (s, successState)
  else fail s c "exceeded max depth".

Definition popParseState (s : scanner) : scanner :=
  match sc_parseState s with
  | [] => s
  | _ :: [] =>
      {| sc_step := stateEndTop; sc_endTop := true; sc_parseState := [];
         sc_err := sc_err s; sc_bytes := sc_bytes s |}
  | _ :: rest => goto (set_parseState s rest) stateEndValue
  end.

Definition isSpace (c : ascii) : bool :=
  isByte c " " || between 9 10 c || between 13 13 c.

Definition isHex (c : ascii) : bool :=
  isDigit c || between 97 102 c || between 65 70 c.

Definition do_EndTop (s : scanner) (c : ascii) : scanner * code :=
  if negb (isSpace c)
  then (fst (fail s c "after top-level value"), scanEnd)
  else (s, scanEnd).

Definition do_EndValue (s : scanner) (c : ascii) : scanner * code :=
  match sc_parseState s with
  | [] =>
      do_EndTop
        {| sc_step := stateEndTop; sc_endTop := true; sc_parseState := [];
           sc_err := sc_err s; sc_bytes := sc_bytes s |} c
  | ps :: rest =>
      if isSpace c then (goto s stateEndValue, scanSkipSpace)
      else
        match ps with
        | parseObjectKey =>
            if isByte c ":"
            then (goto (set_parseState s (parseObjectValue :: rest))
                    stateBeginValue, scanObjectKey)
            else fail s c "after object key"
        | parseObjectValue =>
            if isByte c ","
            then (goto (set_parseState s (parseObjectKey :: rest))
                    stateBeginString, scanObjectValue)
            else if isByte c "}" then (popParseState s, scanEndObject)
            else fail s c "after object key:value pair"
        | parseArrayValue =>
            if isByte c "," then (goto s stateBeginValue, scanArrayValue)
            else if isByte c "]" then (popParseState s, scanEndArray)
            else fail s c "after array element"
        end
  end.

Definition do_BeginValue (s : scanner) (c : ascii) : scanner * code :=
  if isSpace c then (s, scanSkipSpace)
  else if isByte c "{"
  then pushParseState (goto s stateBeginStringOrEmpty) c parseObjectKey
         scanBeginObject
  else if isByte c "["
  then pushParseState (goto s stateBeginValueOrEmpty) c parseArrayValue
         scanBeginArray
  else if isByte c DQUOTE then (goto s stateInString, scanBeginLiteral)
  else if isByte c "-" then (goto s stateNeg, scanBeginLiteral)
  else if isByte c "0" then (goto s state0, scanBeginLiteral)
  else if isByte c "t" then (goto s stateT, scanBeginLiteral)
  else if isByte c "f" then (goto s stateF, scanBeginLiteral)
  else if isByte c "n" then (goto s stateN, scanBeginLiteral)
  else if between 49 57 c then (goto s state1, scanBeginLiteral)
  else fail s c "looking for beginning of value".

Definition do_BeginString (s : scanner) (c : ascii) : scanner * code :=
  if isSpace c then (s, scanSkipSpace)
  else if isByte c DQUOTE then (goto s stateInString, scanBeginLiteral)
  else fail s c "looking for beginning of object key string".

Definition do_0 (s : scanner) (c : ascii) : scanner * code :=
  if isByte c "." then (goto s stateDot, scanContinue)
  else if isByte c "e" || isByte c "E" then (goto s stateE, scanContinue)
  else do_EndValue s c.

Definition do_ESign (s : scanner) (c : ascii) : scanner * code :=
  if isDigit c then (goto s stateE0, scanContinue)
  else fail s c "in exponent of numeric literal".

(** One more byte of a literal such as [true]. *)
Definition expect (s : scanner) (c : ascii) (want : string) (next : state)
  (context : string) : scanner * code :=
  if isByte c want then (goto s next, scanContinue) else fail s c context.

Definition hexDigit (s : scanner) (c : ascii) (next : state)
  : scanner * code :=
  if isHex c then (goto s next, scanContinue)
  else fail s c ("in " ++ BACKSLASH ++ "u hexadecimal character escape").

(** [s.step(s, c)]. *)
Definition step (s : scanner) (c : ascii) : scanner * code :=
  match sc_step s with
  | stateBeginValueOrEmpty =>
      if isSpace c then (s, scanSkipSpace)
      else if isByte c "]" then do_EndValue s c
      else do_BeginValue s c
  | stateBeginValue => do_BeginValue s c
  | stateBeginStringOrEmpty =>
      if isSpace c then (s, scanSkipSpace)
      else if isByte c "}"
      then
        match sc_parseState s with
        | [] => do_EndValue s c
        | _ :: rest => do_EndValue (set_parseState s (parseObjectValue :: rest)) c
        end
      else do_BeginString s c
  | stateBeginString => do_BeginString s c
  | stateEndValue => do_EndValue s c
  | stateEndTop => do_EndTop s c
  | stateInString =>
      if isByte c DQUOTE then (goto s stateEndValue, scanContinue)
      else if isByte c BACKSLASH then (goto s stateInStringEsc, scanContinue)
      else if between 0 31 c then fail s c "in string literal"
      else (s, scanContinue)
  | stateInStringEsc =>
      if isByte c "b" || isByte c "f" || isByte c "n" || isByte c "r"
         || isByte c "t" || isByte c BACKSLASH || isByte c "/"
         || isByte c DQUOTE
      then (goto s stateInString, scanContinue)
      else if isByte c "u" then (goto s stateInStringEscU, scanContinue)
      else fail s c "in string escape code"
  | stateInStringEscU => hexDigit s c stateInStringEscU1
  | stateInStringEscU1 => hexDigit s c stateInStringEscU12
  | stateInStringEscU12 => hexDigit s c stateInStringEscU123
  | stateInStringEscU123 => hexDigit s c stateInString
  | stateNeg =>
      if isByte c "0" then (goto s state0, scanContinue)
      else if between 49 57 c then (goto s state1, scanContinue)
      else fail s c "in numeric literal"
  | state1 =>
      if isDigit c then (goto s state1, scanContinue) else do_0 s c
  | state0 => do_0 s c
  | stateDot =>
      if isDigit c then (goto s stateDot0, scanContinue)
      else fail s c "after decimal point in numeric literal"
  | stateDot0 =>
      if isDigit c then (s, scanContinue)
      else if isByte c "e" || isByte c "E" then (goto s stateE, scanContinue)
      else do_EndValue s c
  | stateE =>
      if isByte c "+" || isByte c "-" then (goto s stateESign, scanContinue)
      else do_ESign s c
  | stateESign => do_ESign s c
  | stateE0 =>
      if isDigit c then (s, scanContinue) else do_EndValue s c
  | stateT => expect s c "r" stateTr "in literal true (expecting 'r')"
  | stateTr => expect s c "u" stateTru "in literal true (expecting 'u')"
  | stateTru => expect s c "e" stateEndValue "in literal true (expecting 'e')"
  | stateF => expect s c "a" stateFa "in literal false (expecting 'a')"
  | stateFa => expect s c "l" stateFal "in literal false (expecting 'l')"
  | stateFal => expect s c "s" stateFals "in literal false (expecting 's')"
  | stateFals => expect s c "e" stateEndValue "in literal false (expecting 'e')"
  | stateN => expect s c "u" stateNu "in literal null (expecting 'u')"
  | stateNu => expect s c "l" stateNul "in literal null (expecting 'l')"
  | stateNul => expect s c "l" stateEndValue "in literal null (expecting 'l')"
  | stateError => (s, scanError)
  end.

(** [scanner.eof]. *)
Definition eof (s : scanner) : scanner * code :=
  match sc_err s with
  | Some _ => (s, scanError)
  | None =>
      if sc_endTop s then (s, scanEnd)
      else
        let s := fst (step s " "%char) in
        if sc_endTop s then (s, scanEnd)
        else
          match sc_err s with
          | Some _ => (s, scanError)
          | None =>
              ({| sc_step := sc_step s; sc_endTop := sc_endTop s;
                  sc_parseState := sc_parseState s;
                  sc_err := Some {| msg := "unexpected end of JSON input";
                                    Offset := sc_bytes s |};
                  sc_bytes := sc_bytes s |}, scanError)
          end
  end.

(** [checkValid]: the syntax error of [data], if it has one. *)
Fixpoint checkValid_loop (data : string) (scan : scanner)
  : option json_SyntaxError :=
  match data with
  | EmptyString => sc_err (fst (eof scan))
  | String c data' =>
      let scan := count_byte scan in
      let '(scan, v) := step scan c in
      match v with
      | scanError => sc_err scan
      | _ => checkValid_loop data' scan
      end
  end.

Definition checkValid (data : string) : option json_SyntaxError :=
  checkValid_loop data reset.

Definition appendNewline (dst prefix indent : string) (depth : Z) : string :=
  dst ++ LF ++ prefix ++ strings_Repeat indent (Z.to_nat depth).

Definition is_end (v : code) : bool :=
  match v with
  | scanEndObject | scanEndArray => true
  | _ => false
  end.

(** The loop of [appendIndent]; it stops at the first byte the scanner
    rejects. *)
Fixpoint indent_loop (src : string) (scan : scanner) (needIndent : bool)
  (depth : Z) (dst prefix indent : string) : scanner * string :=
  match src with
  | EmptyString => (scan, dst)
  | String c src' =>
      let scan := count_byte scan in
      let '(scan, v) := step scan c in
      match v with
      | scanSkipSpace => indent_loop src' scan needIndent depth dst prefix indent
      | scanError => (scan, dst)
      | _ =>
          let '(needIndent, depth, dst) :=
            if needIndent && negb (is_end v)
            then (false, (depth + 1)%Z,
                  appendNewline dst prefix indent (depth + 1))
            else (needIndent, depth, dst) in
          match v with
          | scanContinue =>
              indent_loop src' scan needIndent depth (dst ++ String c "")
                prefix indent
          | _ =>
              if isByte c "{" || isByte c "["
              then indent_loop src' scan true depth (dst ++ String c "")
                     prefix indent
              else if isByte c ","
              then indent_loop src' scan needIndent depth
                     (appendNewline (dst ++ String c "") prefix indent depth)
                     prefix indent
              else if isByte c ":"
              then indent_loop src' scan needIndent depth
                     (dst ++ String c " ") prefix indent
              else if isByte c "}" || isByte c "]"
              then
                if needIndent
                then indent_loop src' scan false depth (dst ++ String c "")
                       prefix indent
                else indent_loop src' scan needIndent (depth - 1)
                       (appendNewline dst prefix indent (depth - 1)
                        ++ String c "") prefix indent
              else indent_loop src' scan needIndent depth (dst ++ String c "")
                     prefix indent
          end
      end
  end.

(** [json.Indent] into an empty buffer: on a syntax error nothing is
    written. *)
Definition Indent (src prefix indent : string) : string * option error :=
  let '(scan, dst) := indent_loop src reset false 0 "" prefix indent in
  match sc_err (fst (eof scan)) with
  | Some e => ("", Some (JsonSyntax e))
  | None => (dst, None)
  end.

End Json.

(** ** A server and a decoder *)

Module Demo.

(** The server reads the request body to its end, 512 bytes at a time,
    before it answers. *)
Fixpoint read_body (reads : nat) (answer : RoundTrip) : RoundTrip :=
  match reads with
  | O => answer
  | S reads' =>
      ReadsBody 512
        (fun _ err =>
           match err with
           | Some _ => answer
           | None => read_body reads' answer
           end)
  end.

Definition x_is_1 : string := "{" ++ DQUOTE ++ "x" ++ DQUOTE ++ ":1}".

Definition answer (code : Z) (status : string) (body : Stream) : Response :=
  {| StatusCode := code; Proto := "HTTP/1.1"; Status := status;
     resp_Header := [("Server", ["films"])]; resp_Body := body |}.

Definition cut_short : error := otherError "unexpected EOF".

(** Four pages: JSON, plain text, a page that is missing, and a failure
    whose body breaks off and stays broken; every other URL redirects,
    which the redirect hook may refuse. *)
Definition server (client : http_Client) (method url : string)
  (h : http_Header) (hasBody : bool) : RoundTrip :=
  read_body 64
    (if url =? "http://films.test/x"
     then Responds (answer 200 "200 OK" (Ends x_is_1))
     else if url =? "http://films.test/hello"
     then Responds (answer 200 "200 OK" (Ends "hello"))
     else if url =? "http://films.test/missing"
     then Responds (answer 404 "404 Not Found" (Ends "not found"))
     else if url =? "http://films.test/broken"
     then Responds (answer 500 "500 Internal Server Error"
                      (Breaks "par" cut_short
                         (Breaks "" cut_short (Ends ""))))
     else
       match CheckRedirect client with
       | Some (errorString text) => Fails (Go.url_Error method url text)
       | Some e => Fails e
       | None => Responds (answer 200 "200 OK" (Ends "moved here"))
       end).

Definition platform : Platform :=
  {| url_URL := string;
     url_Parse := Go.Parse;
     URL_String := fun u => u;
     validMethod := Go.validMethod;
     strconv_Quote := Go.Quote;
     url_Values := Go.Values;
     Values_Encode := Go.Encode;
     transport := server;
     Response_Write := Go.writeResponse;
     json_Indent := Json.Indent;
     strings_TrimSpace := Go.TrimSpace |}.

(** [json.Unmarshal] into a [*bool]: a syntax error comes first; [true]
    and [false] are stored, [null] changes nothing, any other value is a
    type error. *)
Definition Unmarshal_bool (data : string) (v : bool) : bool * option error :=
  match Json.checkValid data with
  | Some e => (v, Some (JsonSyntax e))
  | None =>
      let text := Go.TrimSpace data in
      if text =? "true" then (true, None)
      else if text =? "false" then (false, None)
      else if text =? "null" then (v, None)
      else (v, Some (otherError
                       "json: cannot unmarshal into Go value of type bool"))
  end.

(** The configurations used below. *)
Definition quiet : Request := New [].
Definition tracing : Request := New [Curl true].
Definition tracing_no_redirects : Request :=
  New [Curl true; SkipRedirects true].

(** The client [request] makes for a configuration that follows
    redirects. *)
Definition following : http_Client :=
  {| client_Timeout := 30000000000; CheckRedirect := None |}.

(** The request [request] builds for a GET of [url]. *)
Definition get_of (url : string) : http_Request (P := platform) :=
  @mk_http_Request platform "GET" url [] None.

Definition form : Go.Values := [("b", ["2"]); ("a", ["1"])].

(** The request [Post] builds for [form]. *)
Definition post_form (url : string) : http_Request (P := platform) :=
  @mk_http_Request platform "POST" url
    [("Content-Type", [URLEncodededContentType])]
    (Some (io_TeeReader (strings_NewReader "a=1&b=2") "")).

Definition missing : Response :=
  answer 404 "404 Not Found" (Ends "not found").

Definition broken : Response :=
  answer 500 "500 Internal Server Error"
    (Breaks "par" cut_short (Breaks "" cut_short (Ends ""))).

(** [x_is_1] with an indent of three spaces. *)
Definition x_is_1_indented : string :=
  "{" ++ LF ++ "   " ++ DQUOTE ++ "x" ++ DQUOTE ++ ": 1" ++ LF ++ "}".

Definition x_dump_header : string :=
  "HTTP/1.1 200 OK" ++ CRLF ++ "Server: films".

End Demo.

(** * Properties *)

(** ** Facts about byte strings *)

Module StrFacts.

Import Str.

Lemma app_assoc (a b c : string) : (a ++ b) ++ c = a ++ b ++ c.
Proof. induction a as [|x a IH]; simpl; [reflexivity | now rewrite IH]. Qed.

Lemma app_nil_r (a : string) : a ++ "" = a.
Proof. induction a as [|x a IH]; simpl; [reflexivity | now rewrite IH]. Qed.

Lemma length_app (a b : string) :
  String.length (a ++ b) = (String.length a + String.length b)%nat.
Proof. induction a as [|x a IH]; simpl; [reflexivity | now rewrite IH]. Qed.

Lemma Substring_refl (s : string) : Substring s s.
Proof. exists "", "". simpl. now rewrite app_nil_r. Qed.

Lemma Substring_app_r (sub a b : string) :
  Substring sub b -> Substring sub (a ++ b).
Proof.
  intros (pre & post & ->). exists (a ++ pre), post.
  now rewrite app_assoc.
Qed.

Lemma Substring_app_l (sub a b : string) :
  Substring sub a -> Substring sub (a ++ b).
Proof.
  intros (pre & post & ->). exists pre, (post ++ b).
  now rewrite !app_assoc.
Qed.

Lemma Substring_middle (sub a b : string) : Substring sub (a ++ sub ++ b).
Proof. now exists a, b. Qed.

Lemma prefix_app (a b : string) : prefix a (a ++ b) = true.
Proof.
  induction a as [|x a IH]; simpl.
  - now destruct b.
  - destruct (ascii_dec x x) as [_|ne]; [exact IH | now destruct ne].
Qed.

Lemma prefix_split (a s : string) :
  prefix a s = true -> exists post, s = a ++ post.
Proof.
  revert s. induction a as [|x a IH]; intros s H.
  - now exists s.
  - destruct s as [|y s]; simpl in H; [discriminate|].
    destruct (ascii_dec x y) as [->|ne]; [|discriminate].
    destruct (IH s H) as (post & ->). now exists post.
Qed.

(** [containsb] decides [Substring]. *)
Lemma containsb_spec (s sub : string) :
  containsb s sub = true <-> Substring sub s.
Proof.
  split.
  - induction s as [|x s IH]; cbn [containsb]; intros H.
    + apply orb_true_iff in H as [H|H]; [|discriminate].
      destruct (prefix_split _ _ H) as (post & E). now exists "", post.
    + apply orb_true_iff in H as [H|H].
      * destruct (prefix_split _ _ H) as (post & E). now exists "", post.
      * destruct (IH H) as (pre & post & ->). now exists (String x pre), post.
  - intros (pre & post & ->). induction pre as [|x pre IH].
    + cbn [append]. destruct (sub ++ post) eqn:E; cbn [containsb];
        rewrite <- E, prefix_app; reflexivity.
    + cbn [append containsb]. rewrite IH. apply orb_true_r.
Qed.

Lemma drop_get (n : nat) (s : string) :
  (n < String.length s)%nat ->
  exists b tail, get n s = Some b /\ drop n s = String b tail.
Proof.
  revert s. induction n as [|n IH]; intros [|x s] H; simpl in *; try lia.
  - now exists x, s.
  - apply IH. lia.
Qed.

Lemma take_drop (n : nat) (s : string) :
  take n s ++ drop (String.length (take n s)) s = s.
Proof.
  revert s. induction n as [|n IH]; intros [|x s]; simpl; try reflexivity.
  now rewrite IH.
Qed.

Lemma drop_drop (i k : nat) (s : string) :
  drop (i + k) s = drop k (drop i s).
Proof.
  revert s. induction i as [|i IH]; intros s; simpl; [reflexivity|].
  destruct s as [|x s]; [now destruct k | apply IH].
Qed.

Lemma length_drop (i : nat) (s : string) :
  String.length (drop i s) = (String.length s - i)%nat.
Proof.
  revert s. induction i as [|i IH]; intros [|x s]; simpl; try lia. apply IH.
Qed.

Lemma length_take (n : nat) (s : string) :
  String.length (take n s) = Nat.min n (String.length s).
Proof.
  revert s. induction n as [|n IH]; intros [|x s]; simpl; try lia.
  now rewrite IH.
Qed.

Lemma drop_all (i : nat) (s : string) :
  (String.length s <= i)%nat -> drop i s = "".
Proof.
  revert s. induction i as [|i IH]; intros [|x s] H; simpl in *;
    try reflexivity; try lia.
  apply IH. lia.
Qed.

End StrFacts.

(** ** Outcome classifier *)

(** C3: [IsSuccess] is true exactly on the status codes from 200 to 226,
    both included; it is false at 199 and 227 and true at 200 and 226. *)
Theorem IsSuccess_range :
  (forall statusCode : Z,
      IsSuccess statusCode = true <-> (200 <= statusCode <= 226)%Z)
  /\ IsSuccess 199 = false /\ IsSuccess 200 = true
  /\ IsSuccess 226 = true /\ IsSuccess 227 = false.
Proof.
  split; [|repeat split].
  intros statusCode. unfold IsSuccess, http_StatusOK, http_StatusIMUsed.
  rewrite andb_true_iff, Z.geb_le, Z.leb_le. lia.
Qed.

(** ** JSON decode adapter *)

Lemma wrap64_small (z : Z) :
  (- 2 ^ 63 <= z < 2 ^ 63)%Z -> wrap64 z = z.
Proof.
  intros H. unfold wrap64. rewrite Z.mod_small; lia.
Qed.

(** C7: [Unmarshal] returns a read error as it is and leaves the target
    alone; it wraps a syntax error of the decoder together with the bytes
    read, keeping the decoder's offset; every other result of the decoder
    is returned as the decoder gave it. *)
Theorem Unmarshal_errors (Target : Type)
  (json_Unmarshal : string -> Target -> Target * option error) :
  (forall data e rest v,
      Unmarshal json_Unmarshal (Breaks data e rest) v = (v, Some e))
  /\ (forall data v v' e,
         json_Unmarshal data v = (v', Some (JsonSyntax e)) ->
         Unmarshal json_Unmarshal (Ends data) v
         = (v', Some (SyntaxError e data)))
  /\ (forall data v v' err,
         json_Unmarshal data v = (v', err) ->
         (forall e, err <> Some (JsonSyntax e)) ->
         Unmarshal json_Unmarshal (Ends data) v = (v', err)).
Proof.
  repeat split.
  - intros data v v' e H. unfold Unmarshal. cbn. now rewrite H.
  - intros data v v' err H notSyntax. unfold Unmarshal. cbn. rewrite H.
    destruct err as [[| |e| |]|]; try reflexivity.
    now destruct (notSyntax e).
Qed.

Lemma Unmarshal_errors_witness :
  Unmarshal Demo.Unmarshal_bool
    (Breaks "tr" Demo.cut_short (Ends "")) false
  = (false, Some Demo.cut_short)
  /\ Unmarshal Demo.Unmarshal_bool (Ends "[1,]") false
     = (false,
        Some (SyntaxError
                {| msg := "invalid character ']' looking for beginning of value";
                   Offset := 4 |} "[1,]"))
  /\ Unmarshal Demo.Unmarshal_bool (Ends "1") false
     = (false,
        Some (otherError "json: cannot unmarshal into Go value of type bool")).
Proof.
  destruct (Unmarshal_errors bool Demo.Unmarshal_bool) as (rd & syn & other).
  split; [apply rd | split].
  - apply syn. vm_compute. reflexivity.
  - apply other; [vm_compute; reflexivity | intros e; discriminate].
Defined.

(** C8: when the offset [k] of a decode error lies between 1 and the
    length of the input, the message of the error is the fixed text
    followed by the input from byte [k-1] on: byte [k-1] of the input
    stands in the message, right after the opening quote. *)
Theorem SyntaxError_Error_offset (e : json_SyntaxError) (input : string)
  (k : Z) :
  Offset e = k ->
  (1 <= k <= Z.of_nat (String.length input))%Z ->
  (k < 2 ^ 63)%Z ->
  exists b tail message,
    get (Z.to_nat (k - 1)) input = Some b
    /\ SyntaxError_Error e input = Some message
    /\ message = "syntax error near: `" ++ String b tail ++ "`"
    /\ Str.Substring (String b "") message.
Proof.
  intros Hk range int64.
  destruct (StrFacts.drop_get (Z.to_nat (k - 1)) input) as (b & tail & G & D);
    [lia|].
  exists b, tail, ("syntax error near: `" ++ String b tail ++ "`").
  split; [exact G | split; [|split; [reflexivity|]]].
  - unfold SyntaxError_Error, sub64, slice_from.
    rewrite Hk, wrap64_small by lia.
    replace ((0 <=? k - 1)%Z) with true by (symmetry; apply Z.leb_le; lia).
    replace ((k - 1 <=? Z.of_nat (String.length input))%Z) with true
      by (symmetry; apply Z.leb_le; lia).
    cbn [andb]. now rewrite D.
  - exists "syntax error near: `", (tail ++ "`"). reflexivity.
Qed.

Lemma SyntaxError_Error_offset_witness :
  exists b tail message,
    get (Z.to_nat (4 - 1)) "[1,]" = Some b
    /\ SyntaxError_Error {| msg := "invalid character"; Offset := 4 |} "[1,]"
       = Some message
    /\ message = "syntax error near: `" ++ String b tail ++ "`"
    /\ Str.Substring (String b "") message.
Proof.
  apply (SyntaxError_Error_offset
           {| msg := "invalid character"; Offset := 4 |} "[1,]" 4).
  - reflexivity.
  - simpl. lia.
  - lia.
Defined.

(** ** Request executor *)

Section ExecutorFacts.

Context {P : Platform}.

(** What a successful [request_build] has made. *)
Lemma request_build_inv (c : Request) (method url contentType : string)
  (data : option Reader) (client : http_Client) (req : http_Request) :
  request_build c method url contentType data = inl (client, req) ->
  Method req = (if method =? "" then "GET" else method)
  /\ url_Parse url = inl (req_URL req)
  /\ req_Header req
     = (if contentType =? "" then [] else [("Content-Type", [contentType])])
  /\ req_Body req = option_map (fun r => io_TeeReader r "") data
  /\ client = {| client_Timeout := timeout c;
                 CheckRedirect := if skipRedirects c
                                  then Some (errorString "Skip redirects")
                                  else None |}.
Proof.
  unfold request_build.
  assert (made : forall body r,
             http_NewRequest method url body = inl r ->
             Method r = (if method =? "" then "GET" else method)
             /\ url_Parse url = inl (req_URL r)
             /\ req_Header r = [] /\ req_Body r = body).
  { intros body r. unfold http_NewRequest.
    destruct (negb (validMethod _)); [discriminate|].
    destruct (url_Parse url) as [u|e]; [|discriminate].
    intros [= <-]. cbn. auto. }
  intros H.
  destruct (match data with
            | Some d => http_NewRequest method url (Some (io_TeeReader d ""))
            | None => http_NewRequest method url None
            end) as [r|e] eqn:E; [|discriminate].
  assert (made' : Method r = (if method =? "" then "GET" else method)
                  /\ url_Parse url = inl (req_URL r)
                  /\ req_Header r = []
                  /\ req_Body r = option_map (fun d => io_TeeReader d "") data).
  { destruct data as [d|]; apply made in E; exact E. }
  destruct made' as (M & U & Hd & B).
  injection H as <- <-.
  destruct (contentType =? ""); cbn; rewrite ?Hd; auto.
Qed.

(** The tee is transparent: the transport sees what the reader gives, and
    the buffer grows by exactly the bytes handed over. *)
Lemma serve_tee (t : RoundTrip) (r : Reader) (sent : string) :
  serve t (Some {| tee_r := r; tee_w := sent |}) sent
  = (let '(res, r', sent') := serve_direct t r sent in
     (res, Some {| tee_r := r'; tee_w := sent' |}, sent')).
Proof.
  revert r sent. induction t as [resp|err|n k IH]; intros r sent; cbn.
  - reflexivity.
  - reflexivity.
  - unfold teeReader_Read. cbn [tee_r tee_w].
    destruct (Read r n) as [[p e] r'].
    destruct (0 <? String.length p)%nat eqn:L.
    + apply IH.
    + destruct p as [|x p]; [|discriminate].
      rewrite StrFacts.app_nil_r. apply IH.
Qed.

Lemma serve_no_body (t : RoundTrip) (sent : string) :
  snd (fst (serve t None sent)) = None.
Proof.
  revert sent. induction t as [resp|err|n k IH]; intros sent; cbn; auto.
Qed.

(** C5: when [request] is given a body, the request it builds reads that
    body through a tee on an empty buffer; whatever way the transport
    reads, it is served exactly as by the body itself, and the capture
    buffer ends up holding exactly the bytes handed to the transport.
    Without a body the capture buffer is empty after the transport call. *)
Theorem request_body_capture (c : Request)
  (method url contentType : string) (data : option Reader)
  (client : http_Client) (req : http_Request) :
  request_build c method url contentType data = inl (client, req) ->
  match data with
  | Some r =>
      req_Body req = Some (io_TeeReader r "")
      /\ (forall t : RoundTrip,
             serve t (req_Body req) ""
             = (let '(res, r', sent) := serve_direct t r "" in
                (res, Some {| tee_r := r'; tee_w := sent |}, sent)))
      /\ capture (snd (client_Do client req))
         = snd (serve_direct
                  (transport client (Method req) (req_URL req)
                     (req_Header req) true) r "")
  | None =>
      req_Body req = None /\ capture (snd (client_Do client req)) = ""
  end.
Proof.
  intros H. apply request_build_inv in H as (_ & _ & _ & B & _).
  destruct data as [r|]; cbn in B.
  - split; [exact B | split].
    + intros t. rewrite B. apply serve_tee.
    + unfold client_Do. rewrite B.
      unfold io_TeeReader. rewrite serve_tee.
      destruct (serve_direct _ r "") as [[res r'] sent]. reflexivity.
  - split; [exact B|].
    unfold client_Do. rewrite B.
    pose proof (serve_no_body
                  (transport client (Method req) (req_URL req)
                     (req_Header req) false) "") as N.
    destruct (serve _ None "") as [[res body'] sent]. cbn in N. subst body'.
    reflexivity.
Qed.

(** Reading a [strings.Reader] through a tee until it reports the end
    gives the rest of the string, to the transport and to the buffer. *)
Lemma drain_strings_Reader (s : string) (sizes : list nat) :
  Forall (fun n => 0 < n)%nat sizes ->
  forall (i : nat) (w got : string),
    (i <= String.length s)%nat ->
    (String.length s - i < List.length sizes)%nat ->
    exists tee',
      drain sizes {| tee_r := strings_Reader_at s i; tee_w := w |} got
      = Some (got ++ Str.drop i s, EOF, tee')
      /\ tee_w tee' = w ++ Str.drop i s.
Proof.
  induction 1 as [|n sizes pos _ IH]; intros i w got bound enough;
    cbn [List.length] in enough; [lia|].
  cbn [drain]. unfold teeReader_Read. cbn [tee_r tee_w].
  unfold Read. cbn [reader_step reader_now reader_state strings_Reader_at].
  unfold strings_Reader_Read at 1.
  destruct (String.length s <=? i)%nat eqn:L.
  - apply Nat.leb_le in L. cbn.
    rewrite (StrFacts.drop_all i s L), !StrFacts.app_nil_r.
    eexists. split; reflexivity.
  - apply Nat.leb_gt in L.
    set (p := Str.take n (Str.drop i s)).
    assert (len : String.length p = Nat.min n (String.length s - i)).
    { unfold p. now rewrite StrFacts.length_take, StrFacts.length_drop. }
    assert (rest : Str.drop i s = p ++ Str.drop (i + String.length p) s).
    { rewrite StrFacts.drop_drop. unfold p.
      symmetry. apply StrFacts.take_drop. }
    replace (0 <? String.length p)%nat with true
      by (symmetry; apply Nat.ltb_lt; lia).
    destruct (IH (i + String.length p)%nat (w ++ p) (got ++ p))
      as (tee' & D & W); [lia | lia |].
    exists tee'. split.
    + etransitivity; [exact D|].
      now rewrite StrFacts.app_assoc, <- rest.
    + rewrite W, StrFacts.app_assoc. now rewrite <- rest.
Qed.

(** C6: [Post] sends the request that [request] builds for the method
    POST with the encoded form values as the body: its Content-Type is
    the form type, and reading its body to the end gives the encoded
    values.  [request] sets Content-Type exactly when it is given a
    content type that is not empty; [Get], [Head] and [Delete] pass an
    empty one and no body, so their requests have no header and no body. *)
Theorem Post_form_request :
  (forall (c : Request) (url : string) (values : url_Values)
          (log : list string) (u : url_URL),
      validMethod "POST" = true ->
      url_Parse url = inl u ->
      exists client req tee,
        request_build c http_MethodPost url URLEncodededContentType
          (Some (strings_NewReader (Values_Encode values)))
        = inl (client, req)
        /\ Post c url values log = request_send c client req log
        /\ Method req = "POST"
        /\ req_Header req
           = [("Content-Type", ["application/x-www-form-urlencoded"])]
        /\ req_Body req = Some tee
        /\ forall sizes,
             Forall (fun n => 0 < n)%nat sizes ->
             (String.length (Values_Encode values) < List.length sizes)%nat ->
             exists tee',
               drain sizes tee "" = Some (Values_Encode values, EOF, tee')
               /\ tee_w tee' = Values_Encode values)
  /\ (forall (c : Request) (method url contentType : string)
             (data : option Reader) client req,
         request_build c method url contentType data = inl (client, req) ->
         req_Header req
         = (if contentType =? "" then []
            else [("Content-Type", [contentType])]))
  /\ (forall (c : Request) (url : string) (log : list string),
         Get c url log = request c "GET" url "" None log
         /\ Head c url log = request c "HEAD" url "" None log
         /\ Delete c url log = request c "DELETE" url "" None log)
  /\ (forall (c : Request) (method url : string) client req,
         request_build c method url "" None = inl (client, req) ->
         req_Header req = [] /\ req_Body req = None).
Proof.
  split; [|split; [|split]].
  - intros c url values log u valid parsed.
    destruct (request_build c http_MethodPost url URLEncodededContentType
                (Some (strings_NewReader (Values_Encode values))))
      as [[client req]|e] eqn:B.
    + pose proof (request_build_inv _ _ _ _ _ _ _ B) as (M & _ & H & Bd & _).
      exists client, req,
        (io_TeeReader (strings_NewReader (Values_Encode values)) "").
      split; [reflexivity|].
      split; [unfold Post, request; now rewrite B|].
      split; [exact M|]. split; [exact H|]. split; [exact Bd|].
      intros sizes pos enough.
      destruct (drain_strings_Reader (Values_Encode values) sizes pos 0 "" "")
        as (tee' & D & W); [lia | lia |].
      exists tee'. split; [exact D | exact W].
    + exfalso. revert B.
      unfold request_build, http_NewRequest, http_MethodPost.
      cbn [String.eqb]. rewrite valid, parsed. cbn. discriminate.
  - intros c method url contentType data client req B.
    now apply request_build_inv in B as (_ & _ & H & _).
  - intros c url log. repeat split.
  - intros c method url client req B.
    apply request_build_inv in B as (_ & _ & H & Bd & _). now split.
Qed.

(** C2: [Put] is [Post]: the same call of [request], with the method
    POST, the form content type and the encoded values as the body, so
    the same result; the request built for it carries the method POST. *)
Theorem Put_is_Post (c : Request) (url : string) (values : url_Values)
  (log : list string) :
  Put c url values log = Post c url values log
  /\ Put c url values log
     = request c "POST" url "application/x-www-form-urlencoded"
         (Some (strings_NewReader (Values_Encode values))) log
  /\ forall client req,
       request_build c http_MethodPost url URLEncodededContentType
         (Some (strings_NewReader (Values_Encode values)))
       = inl (client, req) ->
       Put c url values log = request_send c client req log
       /\ Method req = "POST".
Proof.
  split; [reflexivity | split; [reflexivity|]].
  intros client req B. split.
  - unfold Put, request. now rewrite B.
  - now apply request_build_inv in B as (M & _).
Qed.

End ExecutorFacts.

(** ** Trace formatter and outcome *)

Section TraceFacts.

Context {P : Platform}.

(** The headers [request] can have set never make the trace panic. *)
Lemma header_clauses_built (contentType indent : string) (buf : Buffer) :
  header_clauses
    (if contentType =? "" then [] else [("Content-Type", [contentType])])
    indent buf <> None.
Proof. destruct (contentType =? ""); cbn; discriminate. Qed.

Lemma DumpResponse_StatusCode (resp : Response) :
  StatusCode (snd (httputil_DumpResponse resp)) = StatusCode resp.
Proof.
  unfold httputil_DumpResponse.
  destruct (ioutil_ReadAll (resp_Body resp)) as [[data [e|]] rest];
    reflexivity.
Qed.

Lemma DumpResponse_Ends (resp : Response) (body : string) :
  resp_Body resp = Ends body ->
  resp_Body (snd (httputil_DumpResponse resp)) = Ends body.
Proof. intros H. unfold httputil_DumpResponse. now rewrite H. Qed.

(** What [logger] does when tracing is on and the header loop runs
    through: one record is logged; the response is the one
    [DumpResponse] leaves; and when the dump splits in two, the record
    ends with the body block, indented when [json.Indent] accepts it and
    as it is otherwise, and a line feed. *)
Lemma logger_record (c : Request) (r : http_Request) (resp : Response)
  (data : option Stream) (log : list string) :
  curl c || curlHeader c = true ->
  header_clauses (req_Header r) (strings_Repeat " " 4)
    (curl_command c (Method r)) <> None ->
  exists record,
    logger c r resp data log
    = Some (snd (httputil_DumpResponse resp), (log ++ [record])%list)
    /\ forall dump header body rest,
         fst (httputil_DumpResponse resp) = inl dump ->
         bytes_SplitN dump (CRLF ++ CRLF) 2 = header :: body :: rest ->
         exists head,
           record = head ++ (match json_Indent body "" "   " with
                             | (json, None) => json
                             | (_, Some _) => body
                             end) ++ LF.
Proof.
  intros on headers. unfold logger.
  replace (negb (curl c) && negb (curlHeader c)) with false
    by (destruct (curl c), (curlHeader c); cbn in *; congruence).
  destruct (header_clauses _ _ _) as [buf|]; [|congruence].
  set (buf1 := match data with Some _ => _ | None => _ end).
  set (buf2 := WriteString (WriteString (WriteString _ _) _) _).
  destruct (httputil_DumpResponse resp) as [dump resp2].
  eexists. split; [reflexivity|].
  intros d header body rest Hd Hs. cbn in Hd. subst dump. rewrite Hs.
  unfold response_trace, indentJSON.
  destruct (json_Indent body "" "   ") as [json [e|]];
    unfold WriteString at 1 2; rewrite StrFacts.app_assoc;
    eexists; reflexivity.
Qed.

Lemma client_Do_header (client : http_Client) (req : http_Request) :
  req_Header (snd (client_Do client req)) = req_Header req
  /\ Method (snd (client_Do client req)) = Method req.
Proof.
  unfold client_Do. destruct (serve _ _ _) as [[res body'] sent]. now split.
Qed.

(** The trace step of a request that [request_build] made: it does not
    panic, and it leaves the response [DumpResponse] leaves when tracing
    is on, the response itself when it is off. *)
Lemma request_trace_result (c : Request) (method url contentType : string)
  (data : option Reader) (client : http_Client) (req : http_Request)
  (resp : Response) (log : list string) :
  request_build c method url contentType data = inl (client, req) ->
  exists log',
    request_trace c (snd (client_Do client req)) resp log
    = Some (if curl c || curlHeader c
            then snd (httputil_DumpResponse resp) else resp, log')
    /\ (curl c || curlHeader c = false -> log' = log).
Proof.
  intros B. apply request_build_inv in B as (_ & _ & H & _).
  unfold request_trace. destruct (curl c || curlHeader c) eqn:on.
  - destruct (logger_record c (snd (client_Do client req)) resp
                (Some (Ends (capture (snd (client_Do client req))))) log on)
      as (record & L & _).
    + destruct (client_Do_header client req) as (-> & _). rewrite H.
      apply header_clauses_built.
    + eexists. split; [exact L | discriminate].
  - exists log. split; reflexivity.
Qed.

(** [request] after a transport call that gave a response. *)
Lemma request_responded (c : Request) (method url contentType : string)
  (data : option Reader) (log : list string) (client : http_Client)
  (req req' : http_Request) (resp : Response) :
  request_build c method url contentType data = inl (client, req) ->
  client_Do client req = (inl resp, req') ->
  request c method url contentType data log
  = match request_trace c req' resp log with
    | None => None
    | Some (resp, log) =>
        if IsSuccess (StatusCode resp) then Some (Some resp, None, log)
        else
          match ioutil_ReadAll (resp_Body resp) with
          | (_, Some err, _) => Some (None, Some err, log)
          | (body, None, _) =>
              Some (None,
                    Some (errorString
                            ("Error making HTTP request.  HTTP Status "
                             ++ itoa (StatusCode resp) ++ ": " ++ body)),
                    log)
          end
    end.
Proof.
  intros B D. unfold request. rewrite B. unfold request_send. rewrite D.
  destruct (request_trace c req' resp log) as [[resp1 log1]|]; [|reflexivity].
  unfold IsSuccess.
  destruct ((StatusCode resp1 >=? http_StatusOK)
            && (StatusCode resp1 <=? http_StatusIMUsed))%Z; [reflexivity|].
  destruct (ioutil_ReadAll (resp_Body resp1)) as [[body [e|]] rest];
    reflexivity.
Qed.

(** C4: when the transport gives a response whose status is not a success
    and whose body reads to its end, [request] returns no response and an
    error whose text holds the status code in decimal and the body. *)
Theorem request_failure_status (c : Request)
  (method url contentType : string) (data : option Reader)
  (log : list string) (client : http_Client) (req req' : http_Request)
  (resp : Response) (body : string) :
  request_build c method url contentType data = inl (client, req) ->
  client_Do client req = (inl resp, req') ->
  IsSuccess (StatusCode resp) = false ->
  resp_Body resp = Ends body ->
  exists text log',
    request c method url contentType data log
    = Some (None, Some (errorString text), log')
    /\ Str.Substring (itoa (StatusCode resp)) text
    /\ Str.Substring body text.
Proof.
  intros B D failure whole.
  rewrite (request_responded _ _ _ _ _ log _ _ _ _ B D).
  destruct (request_trace_result c _ _ _ _ _ _ resp log B) as (log' & T & _).
  rewrite D in T. cbn [snd] in T. rewrite T.
  set (resp1 := if curl c || curlHeader c
                then snd (httputil_DumpResponse resp) else resp).
  assert (S1 : StatusCode resp1 = StatusCode resp).
  { unfold resp1. destruct (curl c || curlHeader c);
      [apply DumpResponse_StatusCode | reflexivity]. }
  assert (B1 : resp_Body resp1 = Ends body).
  { unfold resp1. destruct (curl c || curlHeader c);
      [now apply DumpResponse_Ends | exact whole]. }
  rewrite S1, failure, B1. cbn [ioutil_ReadAll].
  eexists. exists log'. split; [reflexivity | split].
  - apply StrFacts.Substring_middle.
  - do 3 apply StrFacts.Substring_app_r. apply StrFacts.Substring_refl.
Qed.

(** C10: when the status is not a success and the read of the response
    body at the end of [request] fails, [request] returns no response
    and that read error, not an error made from the status code.
    Without tracing this is the first read of the body the transport
    gave. *)
Theorem request_failure_read_error (c : Request)
  (method url contentType : string) (data : option Reader)
  (log : list string) (client : http_Client) (req req' : http_Request)
  (resp : Response) :
  request_build c method url contentType data = inl (client, req) ->
  client_Do client req = (inl resp, req') ->
  IsSuccess (StatusCode resp) = false ->
  (forall resp' log' read e rest,
      request_trace c req' resp log = Some (resp', log') ->
      ioutil_ReadAll (resp_Body resp') = (read, Some e, rest) ->
      request c method url contentType data log = Some (None, Some e, log'))
  /\ (curl c = false -> curlHeader c = false ->
      forall read e rest,
        resp_Body resp = Breaks read e rest ->
        request c method url contentType data log = Some (None, Some e, log)).
Proof.
  intros B D failure.
  pose proof (request_responded _ _ _ _ _ log _ _ _ _ B D) as R.
  destruct (request_trace_result c _ _ _ _ _ _ resp log B) as (log1 & T & Q).
  rewrite D in T. cbn [snd] in T.
  split.
  - intros resp' log' read e rest T' rd. rewrite R, T'.
    rewrite T in T'. injection T' as <- <-.
    replace (IsSuccess _) with false; [now rewrite rd|].
    destruct (curl c || curlHeader c);
      [now rewrite DumpResponse_StatusCode | now rewrite failure].
  - intros off1 off2 read e rest broken. rewrite R, T.
    rewrite off1, off2 in *. cbn [orb] in *. rewrite (Q eq_refl).
    now rewrite failure, broken.
Qed.

(** C9: in the record [logger] writes, the body block of the dumped
    response comes last, before a closing line feed: as [json.Indent]
    renders it with an empty prefix and an indent of three spaces when
    that succeeds, and unchanged when it fails. *)
Theorem logger_body_block (c : Request) (r : http_Request)
  (resp resp' : Response) (data : option Stream) (log log' : list string)
  (dump header body : string) (rest : list string) :
  curl c || curlHeader c = true ->
  logger c r resp data log = Some (resp', log') ->
  fst (httputil_DumpResponse resp) = inl dump ->
  bytes_SplitN dump (CRLF ++ CRLF) 2 = header :: body :: rest ->
  exists record head,
    log' = (log ++ [record])%list
    /\ (forall json,
           json_Indent body "" "   " = (json, None) ->
           record = head ++ json ++ LF /\ Str.Substring json record)
    /\ (forall json e,
           json_Indent body "" "   " = (json, Some e) ->
           record = head ++ body ++ LF /\ Str.Substring body record).
Proof.
  intros on L Hd Hs.
  destruct (logger_record c r resp data log on) as (record & L' & shape).
  { intros N. unfold logger in L.
    replace (negb (curl c) && negb (curlHeader c)) with false in L
      by (destruct (curl c), (curlHeader c); cbn in *; congruence).
    rewrite N in L. discriminate. }
  rewrite L' in L. injection L as <- <-.
  destruct (shape dump header body rest Hd Hs) as (head & E).
  exists record, head. split; [reflexivity | split].
  - intros json ok. rewrite ok in E. split; [exact E|].
    rewrite E. apply StrFacts.Substring_middle.
  - intros json e bad. rewrite bad in E. split; [exact E|].
    rewrite E. apply StrFacts.Substring_middle.
Qed.

End TraceFacts.

(** ** The follow-redirects flag *)

Lemma no_flag_in_method (method tail : string) :
  Go.allb Go.isAlnum method = true ->
  Str.containsb (method ++ tail) " -L" = Str.containsb tail " -L".
Proof.
  induction method as [|x method IH]; intros letters; [reflexivity|].
  cbn [Go.allb] in letters. apply andb_true_iff in letters as (Hx & Hm).
  cbn [append Str.containsb]. rewrite (IH Hm).
  cbn [prefix]. destruct (ascii_dec " " x) as [<-|_]; [discriminate|].
  reflexivity.
Qed.

(** C1: for a method made of letters and digits, the command line that
    [logger] writes holds the flag [-L] exactly when [skipRedirects] is
    true; with [skipRedirects] false the flag is absent. *)
Theorem curl_command_follow_flag (c : Request) (method : string) :
  Go.allb Go.isAlnum method = true ->
  Str.containsb (curl_command c method) " -L" = skipRedirects c.
Proof.
  intros letters. unfold curl_command, WriteString.
  destruct (skipRedirects c).
  - apply StrFacts.containsb_spec.
    exists (LF ++ "curl -sS"), (" -X" ++ method ++ " " ++ BACKSLASH ++ LF).
    now rewrite !StrFacts.app_assoc.
  - rewrite !StrFacts.app_assoc. cbn -[Str.containsb].
    cbn [Str.containsb prefix].
    repeat match goal with
           | |- context [ascii_dec ?a ?b] =>
               destruct (ascii_dec a b); [discriminate|]
           end.
    cbn [orb]. rewrite (no_flag_in_method _ _ letters). reflexivity.
Qed.

Lemma curl_command_follow_flag_witness :
  Str.containsb (curl_command Demo.tracing "GET") " -L" = false
  /\ Str.containsb (curl_command Demo.tracing_no_redirects "GET") " -L"
     = true.
Proof.
  split.
  - apply (curl_command_follow_flag Demo.tracing "GET"). reflexivity.
  - apply (curl_command_follow_flag Demo.tracing_no_redirects "GET").
    reflexivity.
Defined.

(** ** The properties on the demo platform *)

Lemma Put_is_Post_witness :
  Put (P := Demo.platform) Demo.quiet "http://films.test/hello" Demo.form []
  = request_send Demo.quiet Demo.following
      (Demo.post_form "http://films.test/hello") []
  /\ Method (Demo.post_form "http://films.test/hello") = "POST".
Proof.
  destruct (Put_is_Post (P := Demo.platform) Demo.quiet
              "http://films.test/hello" Demo.form []) as (_ & _ & sent).
  apply (sent Demo.following (Demo.post_form "http://films.test/hello")).
  reflexivity.
Defined.

Lemma request_failure_status_witness :
  exists text log',
    request (P := Demo.platform) Demo.tracing "GET"
      "http://films.test/missing" "" None []
    = Some (None, Some (errorString text), log')
    /\ Str.Substring "404" text
    /\ Str.Substring "not found" text.
Proof.
  apply (request_failure_status (P := Demo.platform) Demo.tracing "GET"
           "http://films.test/missing" "" None [] Demo.following
           (Demo.get_of "http://films.test/missing")
           (Demo.get_of "http://films.test/missing")
           Demo.missing "not found"); reflexivity.
Defined.

Lemma request_failure_read_error_witness :
  request (P := Demo.platform) Demo.quiet "GET"
    "http://films.test/broken" "" None []
  = Some (None, Some Demo.cut_short, []).
Proof.
  destruct (request_failure_read_error (P := Demo.platform) Demo.quiet "GET"
              "http://films.test/broken" "" None [] Demo.following
              (Demo.get_of "http://films.test/broken")
              (Demo.get_of "http://films.test/broken")
              Demo.broken eq_refl eq_refl eq_refl) as (traced & untraced).
  apply (untraced eq_refl eq_refl "par" Demo.cut_short
           (Breaks "" Demo.cut_short (Ends ""))).
  reflexivity.
Defined.

Lemma request_body_capture_witness :
  req_Body (Demo.post_form "http://films.test/hello")
  = Some (io_TeeReader (strings_NewReader "a=1&b=2") "")
  /\ capture (snd (client_Do Demo.following
                     (Demo.post_form "http://films.test/hello")))
     = "a=1&b=2".
Proof.
  destruct (request_body_capture (P := Demo.platform) Demo.quiet "POST"
              "http://films.test/hello" URLEncodededContentType
              (Some (strings_NewReader "a=1&b=2")) Demo.following
              (Demo.post_form "http://films.test/hello") eq_refl)
    as (body & _ & captured).
  split; [exact body|]. rewrite captured. reflexivity.
Defined.

Lemma Post_form_request_witness :
  exists client req tee,
    request_build (P := Demo.platform) Demo.quiet "POST"
      "http://films.test/hello" URLEncodededContentType
      (Some (strings_NewReader "a=1&b=2"))
    = inl (client, req)
    /\ req_Header req
       = [("Content-Type", ["application/x-www-form-urlencoded"])]
    /\ req_Body req = Some tee
    /\ exists tee',
         drain [4; 4; 4; 4; 4; 4; 4; 4]%nat tee ""
         = Some ("a=1&b=2", EOF, tee')
         /\ tee_w tee' = "a=1&b=2".
Proof.
  destruct (Post_form_request (P := Demo.platform)) as (post & _).
  destruct (post Demo.quiet "http://films.test/hello" Demo.form []
              "http://films.test/hello" eq_refl eq_refl)
    as (client & req & tee & B & _ & _ & H & Bd & read).
  exists client, req, tee.
  split; [exact B | split; [exact H | split; [exact Bd|]]].
  apply read.
  - repeat constructor.
  - vm_compute. lia.
Defined.

Lemma logger_body_block_witness :
  exists record head,
    logger (P := Demo.platform) Demo.tracing
      (Demo.get_of "http://films.test/x")
      (Demo.answer 200 "200 OK" (Ends Demo.x_is_1)) (Some (Ends "")) []
    = Some (Demo.answer 200 "200 OK" (Ends Demo.x_is_1), [record])
    /\ record = head ++ Demo.x_is_1_indented ++ LF.
Proof.
  destruct (logger_body_block (P := Demo.platform) Demo.tracing
              (Demo.get_of "http://films.test/x")
              (Demo.answer 200 "200 OK" (Ends Demo.x_is_1))
              (Demo.answer 200 "200 OK" (Ends Demo.x_is_1))
              (Some (Ends "")) []
              (match logger (P := Demo.platform) Demo.tracing
                       (Demo.get_of "http://films.test/x")
                       (Demo.answer 200 "200 OK" (Ends Demo.x_is_1))
                       (Some (Ends "")) [] with
               | Some (_, log') => log'
               | None => []
               end)
              (Demo.x_dump_header ++ CRLF ++ CRLF ++ Demo.x_is_1)
              Demo.x_dump_header Demo.x_is_1 []
              eq_refl eq_refl eq_refl eq_refl)
    as (record & head & L & indented & _).
  exists record, head. split.
  - cbn [app] in L. rewrite <- L. reflexivity.
  - apply (indented Demo.x_is_1_indented). reflexivity.
Defined.

(** ** Runs on the demo platform *)

(** An offset of zero, which the decoder reports for an empty input, is
    outside the range the message can render: the slice panics. *)
Example SyntaxError_Error_offset_zero (text input : string) :
  SyntaxError_Error {| msg := text; Offset := 0 |} input = None.
Proof. reflexivity. Qed.

Example Unmarshal_empty_body :
  Unmarshal Demo.Unmarshal_bool (Ends "") false
  = (false,
     Some (SyntaxError
             {| msg := "unexpected end of JSON input"; Offset := 0 |} "")).
Proof. reflexivity. Qed.

(** The whole record of a traced GET, with redirects followed and with
    redirects refused. *)
Example trace_of_get :
  Get (P := Demo.platform) Demo.tracing "http://films.test/hello" []
  = Some (Some (Demo.answer 200 "200 OK" (Ends "hello")), None,
          [LF ++ "curl -sS -XGET " ++ BACKSLASH ++ LF
           ++ "    " ++ DQUOTE ++ "http://films.test/hello" ++ DQUOTE
           ++ LF ++ LF ++ "HTTP/1.1 200 OK" ++ LF ++ "hello" ++ LF]).
Proof. reflexivity. Qed.

Example trace_of_get_no_redirects :
  Get (P := Demo.platform) Demo.tracing_no_redirects
    "http://films.test/hello" []
  = Some (Some (Demo.answer 200 "200 OK" (Ends "hello")), None,
          [LF ++ "curl -sS -L -XGET " ++ BACKSLASH ++ LF
           ++ "    " ++ DQUOTE ++ "http://films.test/hello" ++ DQUOTE
           ++ LF ++ LF ++ "HTTP/1.1 200 OK" ++ LF ++ "hello" ++ LF]).
Proof. reflexivity. Qed.

(** A traced POST: the data clause is the captured body. *)
Example trace_of_post :
  Post (P := Demo.platform) Demo.tracing "http://films.test/missing"
    Demo.form []
  = Some (None,
          Some (errorString
                  "Error making HTTP request.  HTTP Status 404: not found"),
          [LF ++ "curl -sS -XPOST " ++ BACKSLASH ++ LF
           ++ "    -H'Content-Type: application/x-www-form-urlencoded' "
           ++ BACKSLASH ++ LF
           ++ "    -d'a=1&b=2' " ++ BACKSLASH ++ LF
           ++ "    " ++ DQUOTE ++ "http://films.test/missing" ++ DQUOTE
           ++ LF ++ LF ++ "HTTP/1.1 404 Not Found" ++ LF ++ "not found"
           ++ LF]).
Proof. reflexivity. Qed.

(** With tracing on, a body that breaks off is read twice: the dump meets
    the first failure, [request] the second. *)
Example traced_broken_body :
  Get (P := Demo.platform) Demo.tracing "http://films.test/broken" []
  = Some (None, Some Demo.cut_short,
          [LF ++ "curl -sS -XGET " ++ BACKSLASH ++ LF
           ++ "    " ++ DQUOTE ++ "http://films.test/broken" ++ DQUOTE]).
Proof. reflexivity. Qed.

(** A refused redirect is a transport error; nothing is traced. *)
Example refused_redirect :
  Get (P := Demo.platform) Demo.tracing_no_redirects
    "http://films.test/elsewhere" []
  = Some (None,
          Some (otherError
                  ("Get " ++ DQUOTE ++ "http://films.test/elsewhere" ++ DQUOTE
                   ++ ": Skip redirects")), []).
Proof. reflexivity. Qed.

(** * Further properties of the package *)

(** ** Configuration *)

(** X1: [New] starts from the documented defaults and applies the options
    from left to right, so an option at the end of the list decides its
    field and leaves the other three as the options before it made
    them. *)
Theorem New_applies_in_order :
  New [] = {| curl := false; curlHeader := false;
              timeout := 30000000000; skipRedirects := false |}
  /\ (forall opts o, New (opts ++ [o]) = o (New opts))
  /\ (forall opts b,
         New (opts ++ [Curl b])
         = {| curl := b; curlHeader := curlHeader (New opts);
              timeout := timeout (New opts);
              skipRedirects := skipRedirects (New opts) |})
  /\ (forall opts b,
         New (opts ++ [CurlHeader b])
         = {| curl := curl (New opts); curlHeader := b;
              timeout := timeout (New opts);
              skipRedirects := skipRedirects (New opts) |})
  /\ (forall opts d,
         New (opts ++ [Timeout d])
         = {| curl := curl (New opts); curlHeader := curlHeader (New opts);
              timeout := d;
              skipRedirects := skipRedirects (New opts) |})
  /\ (forall opts b,
         New (opts ++ [SkipRedirects b])
         = {| curl := curl (New opts); curlHeader := curlHeader (New opts);
              timeout := timeout (New opts);
              skipRedirects := b |}).
Proof.
  assert (last : forall opts o, New (opts ++ [o]) = o (New opts)).
  { intros opts o. unfold New. now rewrite fold_left_app. }
  split; [reflexivity | split; [exact last|]].
  repeat split; intros opts x; rewrite last; reflexivity.
Qed.

(** ** Rendering a decode error *)

(** X6: for an offset that is an [int64] and an input shorter than the
    largest [int64], [SyntaxError.Error] returns the fixed text around the
    input from byte [Offset-1] on when the offset lies between 1 and one
    past the length of the input, and panics for every other offset, zero
    included. *)
Theorem SyntaxError_Error_defined (e : json_SyntaxError) (input : string) :
  (- 2 ^ 63 <= Offset e < 2 ^ 63)%Z ->
  (Z.of_nat (String.length input) < 2 ^ 63 - 1)%Z ->
  ((1 <= Offset e <= Z.of_nat (String.length input) + 1)%Z ->
   SyntaxError_Error e input
   = Some ("syntax error near: `"
           ++ Str.drop (Z.to_nat (Offset e - 1)) input ++ "`"))
  /\ ((Offset e < 1 \/ Z.of_nat (String.length input) + 1 < Offset e)%Z ->
      SyntaxError_Error e input = None).
Proof.
  intros int64 short. unfold SyntaxError_Error, sub64, slice_from. split.
  - intros range. rewrite wrap64_small by lia.
    replace ((0 <=? Offset e - 1)%Z) with true
      by (symmetry; apply Z.leb_le; lia).
    replace ((Offset e - 1 <=? Z.of_nat (String.length input))%Z) with true
      by (symmetry; apply Z.leb_le; lia).
    reflexivity.
  - intros out.
    destruct (Z.eq_dec (Offset e) (- 2 ^ 63)) as [lowest|other].
    + rewrite lowest.
      replace (wrap64 (- 2 ^ 63 - 1)) with (2 ^ 63 - 1)%Z by reflexivity.
      replace ((2 ^ 63 - 1 <=? Z.of_nat (String.length input))%Z) with false
        by (symmetry; apply Z.leb_gt; lia).
      now rewrite andb_false_r.
    + rewrite wrap64_small by lia.
      destruct out as [low|high].
      * replace ((0 <=? Offset e - 1)%Z) with false
          by (symmetry; apply Z.leb_gt; lia).
        reflexivity.
      * replace ((Offset e - 1 <=? Z.of_nat (String.length input))%Z)
          with false by (symmetry; apply Z.leb_gt; lia).
        now rewrite andb_false_r.
Qed.

Lemma SyntaxError_Error_defined_witness :
  SyntaxError_Error {| msg := "unexpected end of JSON input"; Offset := 1 |}
    "{"
  = Some "syntax error near: `{`"
  /\ SyntaxError_Error {| msg := "unexpected end of JSON input"; Offset := 2 |}
       "{"
     = Some "syntax error near: ``"
  /\ SyntaxError_Error {| msg := "unexpected end of JSON input"; Offset := 3 |}
       "{"
     = None.
Proof.
  split; [|split].
  - apply (SyntaxError_Error_defined
             {| msg := "unexpected end of JSON input"; Offset := 1 |} "{");
      cbn; lia.
  - apply (SyntaxError_Error_defined
             {| msg := "unexpected end of JSON input"; Offset := 2 |} "{");
      cbn; lia.
  - apply (SyntaxError_Error_defined
             {| msg := "unexpected end of JSON input"; Offset := 3 |} "{");
      cbn; lia.
Defined.

(** X7: [Unmarshal] returns no error exactly when the stream reads to its
    end and the decoder accepts the bytes read; the target is then the
    one the decoder left. *)
Theorem Unmarshal_success_iff (Target : Type)
  (json_Unmarshal : string -> Target -> Target * option error)
  (body : Stream) (v v' : Target) :
  Unmarshal json_Unmarshal body v = (v', None)
  <-> exists data, body = Ends data /\ json_Unmarshal data v = (v', None).
Proof.
  split.
  - destruct body as [data|data e rest]; unfold Unmarshal; cbn;
      [|discriminate].
    intros H. exists data. split; [reflexivity|].
    destruct (json_Unmarshal data v) as [v1 [[| |se| |]|]];
      try discriminate; exact H.
  - intros (data & -> & H). unfold Unmarshal. cbn. now rewrite H.
Qed.

(** ** The executor, case by case *)

Section OutcomeFacts.

Context {P : Platform}.

(** The trace step of a built request logs one record when tracing is on
    and nothing when it is off. *)
Lemma request_trace_log (c : Request) (method url contentType : string)
  (data : option Reader) (client : http_Client) (req : http_Request)
  (resp : Response) (log : list string) :
  request_build c method url contentType data = inl (client, req) ->
  exists log',
    request_trace c (snd (client_Do client req)) resp log
    = Some (if curl c || curlHeader c
            then snd (httputil_DumpResponse resp) else resp, log')
    /\ (if curl c || curlHeader c
        then exists record, log' = (log ++ [record])%list
        else log' = log).
Proof.
  intros B. apply request_build_inv in B as (_ & _ & H & _).
  unfold request_trace. destruct (curl c || curlHeader c) eqn:on.
  - destruct (logger_record c (snd (client_Do client req)) resp
                (Some (Ends (capture (snd (client_Do client req))))) log on)
      as (record & L & _).
    + destruct (client_Do_header client req) as (-> & _). rewrite H.
      apply header_clauses_built.
    + eexists. split; [exact L | now exists record].
  - exists log. split; reflexivity.
Qed.

(** Every run of [request], by the step that decides it. *)
Lemma request_cases (c : Request) (method url contentType : string)
  (data : option Reader) (log : list string) :
  (exists err,
      request_build c method url contentType data = inr err
      /\ request c method url contentType data log
         = Some (None, Some err, log))
  \/ (exists client req req' err,
         request_build c method url contentType data = inl (client, req)
         /\ client_Do client req = (inr err, req')
         /\ request c method url contentType data log
            = Some (None, Some err, log))
  \/ (exists client req req' resp log',
         request_build c method url contentType data = inl (client, req)
         /\ client_Do client req = (inl resp, req')
         /\ request_trace c req' resp log
            = Some (if curl c || curlHeader c
                    then snd (httputil_DumpResponse resp) else resp, log')
         /\ (if curl c || curlHeader c
             then exists record, log' = (log ++ [record])%list
             else log' = log)
         /\ request c method url contentType data log
            = (let resp1 := if curl c || curlHeader c
                            then snd (httputil_DumpResponse resp)
                            else resp in
               if IsSuccess (StatusCode resp)
               then Some (Some resp1, None, log')
               else
                 match ioutil_ReadAll (resp_Body resp1) with
                 | (_, Some err, _) => Some (None, Some err, log')
                 | (body, None, _) =>
                     Some (None,
                           Some (errorString
                                   ("Error making HTTP request.  HTTP Status "
                                    ++ itoa (StatusCode resp) ++ ": " ++ body)),
                           log')
                 end)).
Proof.
  destruct (request_build c method url contentType data)
    as [[client req]|err] eqn:B.
  - destruct (client_Do client req) as [[resp|err] req'] eqn:D.
    + right. right.
      destruct (request_trace_log c _ _ _ _ _ _ resp log B)
        as (log' & T & L).
      rewrite D in T. cbn [snd] in T.
      exists client, req, req', resp, log'.
      repeat (split; [reflexivity || assumption|]).
      rewrite (request_responded _ _ _ _ _ log _ _ _ _ B D), T. cbn zeta.
      replace (StatusCode (if curl c || curlHeader c
                           then snd (httputil_DumpResponse resp) else resp))
        with (StatusCode resp); [reflexivity|].
      destruct (curl c || curlHeader c);
        [now rewrite DumpResponse_StatusCode | reflexivity].
    + right. left. exists client, req, req', err.
      repeat (split; [reflexivity|]).
      unfold request. rewrite B. unfold request_send. now rewrite D.
  - left. exists err. split; [reflexivity|].
    unfold request. now rewrite B.
Qed.

(** X3: [request] never panics: the header loop of the trace only meets
    the Content-Type header that [request] itself has set, which has a
    value. *)
Theorem request_never_panics (c : Request)
  (method url contentType : string) (data : option Reader)
  (log : list string) :
  exists out, request c method url contentType data log = Some out.
Proof.
  destruct (request_cases c method url contentType data log)
    as [(err & _ & R)
       |[(client & req & req' & err & _ & _ & R)
        |(client & req & req' & resp & log' & _ & _ & _ & _ & R)]];
    rewrite R; [eexists; reflexivity .. |]. cbn zeta.
  destruct (IsSuccess (StatusCode resp)); [eexists; reflexivity|].
  destruct (ioutil_ReadAll _) as [[body [e|]] rest]; eexists; reflexivity.
Qed.

(** X2: [request] returns either a response and no error, or an error and
    no response; a response it returns has a status code from 200 to
    226, so a caller need not test [IsSuccess] again. *)
Theorem request_outcome_exclusive (c : Request)
  (method url contentType : string) (data : option Reader)
  (log log' : list string) (r : option Response) (e : option error) :
  request c method url contentType data log = Some (r, e, log') ->
  (exists resp,
      r = Some resp /\ e = None /\ IsSuccess (StatusCode resp) = true)
  \/ (exists err, r = None /\ e = Some err).
Proof.
  destruct (request_cases c method url contentType data log)
    as [(err & _ & R)
       |[(client & req & req' & err & _ & _ & R)
        |(client & req & req' & resp & log1 & _ & _ & _ & _ & R)]];
    rewrite R; cbn zeta.
  - intros [= <- <- _]. right. now exists err.
  - intros [= <- <- _]. right. now exists err.
  - destruct (IsSuccess (StatusCode resp)) eqn:ok.
    + intros [= <- <- _]. left. eexists. repeat split.
      destruct (curl c || curlHeader c);
        [now rewrite DumpResponse_StatusCode | exact ok].
    + destruct (ioutil_ReadAll _) as [[body [err|]] rest];
        intros [= <- <- _]; right; eexists; split; reflexivity.
Qed.

(** X4: [request] logs nothing when it fails to build the request or the
    transport fails; once the transport has given a response it logs
    exactly one record if one of the trace flags is set, whatever the
    status, and nothing if none is. *)
Theorem request_traces_once (c : Request)
  (method url contentType : string) (data : option Reader)
  (log : list string) :
  (forall err,
      request_build c method url contentType data = inr err ->
      request c method url contentType data log = Some (None, Some err, log))
  /\ (forall client req req' err,
         request_build c method url contentType data = inl (client, req) ->
         client_Do client req = (inr err, req') ->
         request c method url contentType data log
         = Some (None, Some err, log))
  /\ (forall client req req' resp,
         request_build c method url contentType data = inl (client, req) ->
         client_Do client req = (inl resp, req') ->
         exists r e log',
           request c method url contentType data log = Some (r, e, log')
           /\ (if curl c || curlHeader c
               then exists record, log' = (log ++ [record])%list
               else log' = log)).
Proof.
  destruct (request_cases c method url contentType data log)
    as [(err & B & R)
       |[(client & req & req' & err & B & D & R)
        |(client & req & req' & resp & log1 & B & D & _ & L & R)]];
    (split; [|split]); intros; try congruence.
  rewrite R. cbn zeta.
  destruct (IsSuccess (StatusCode resp));
    [do 3 eexists; split; [reflexivity | exact L]|].
  destruct (ioutil_ReadAll _) as [[body [e|]] rest];
    do 3 eexists; (split; [reflexivity | exact L]).
Qed.

End OutcomeFacts.

Section ResponseFacts.

Context {P : Platform}.

Lemma with_Body_same (resp : Response) (b : Stream) :
  resp_Body resp = b -> with_Body resp b = resp.
Proof. destruct resp. cbn. now intros ->. Qed.

Lemma DumpResponse_fields (resp : Response) :
  Proto (snd (httputil_DumpResponse resp)) = Proto resp
  /\ Status (snd (httputil_DumpResponse resp)) = Status resp
  /\ resp_Header (snd (httputil_DumpResponse resp)) = resp_Header resp.
Proof.
  unfold httputil_DumpResponse.
  destruct (ioutil_ReadAll (resp_Body resp)) as [[data [e|]] rest];
    repeat split.
Qed.

(** X5: on a success status [request] returns the response of the
    transport with its status, protocol and headers.  Without tracing it
    is that response untouched; a body that reads to its end is still
    there in full after the trace has dumped it; but a body that breaks
    off while the trace dumps it is returned as that failed read left
    it. *)
Theorem request_success_response (c : Request)
  (method url contentType : string) (data : option Reader)
  (log : list string) (client : http_Client) (req req' : http_Request)
  (resp : Response) :
  request_build c method url contentType data = inl (client, req) ->
  client_Do client req = (inl resp, req') ->
  IsSuccess (StatusCode resp) = true ->
  exists resp' log',
    request c method url contentType data log = Some (Some resp', None, log')
    /\ StatusCode resp' = StatusCode resp
    /\ Proto resp' = Proto resp
    /\ Status resp' = Status resp
    /\ resp_Header resp' = resp_Header resp
    /\ (curl c || curlHeader c = false -> resp' = resp)
    /\ (forall body, resp_Body resp = Ends body -> resp' = resp)
    /\ (curl c || curlHeader c = true ->
        forall read e rest,
          resp_Body resp = Breaks read e rest -> resp_Body resp' = rest).
Proof.
  intros B D ok.
  rewrite (request_responded _ _ _ _ _ log _ _ _ _ B D).
  destruct (request_trace_log c _ _ _ _ _ _ resp log B) as (log' & T & _).
  rewrite D in T. cbn [snd] in T. rewrite T.
  destruct (DumpResponse_fields resp) as (Pr & St & Hd).
  pose proof (DumpResponse_StatusCode resp) as Sc.
  destruct (curl c || curlHeader c).
  - rewrite Sc, ok. eexists. exists log'.
    split; [reflexivity|]. repeat (split; [assumption|]).
    split; [discriminate | split].
    + intros body whole. unfold httputil_DumpResponse. rewrite whole. cbn.
      now apply with_Body_same.
    + intros _ read e rest broken. unfold httputil_DumpResponse.
      now rewrite broken.
  - rewrite ok. exists resp, log'.
    split; [reflexivity|]. do 4 (split; [reflexivity|]).
    split; [reflexivity | split; [reflexivity | discriminate]].
Qed.

Lemma request_build_config (c c' : Request)
  (method url contentType : string) (data : option Reader) :
  timeout c = timeout c' ->
  skipRedirects c = skipRedirects c' ->
  request_build c method url contentType data
  = request_build c' method url contentType data.
Proof. intros T S. unfold request_build. now rewrite T, S. Qed.

(** X13: the two trace flags do not change what [request] returns when
    the response body reads to its end: two configurations with the same
    timeout and redirect policy get the same response or the same error,
    whatever their trace flags. *)
Theorem tracing_keeps_result (c c' : Request)
  (method url contentType : string) (data : option Reader)
  (log : list string) (client : http_Client) (req req' : http_Request)
  (resp : Response) (body : string) :
  timeout c = timeout c' ->
  skipRedirects c = skipRedirects c' ->
  request_build c method url contentType data = inl (client, req) ->
  client_Do client req = (inl resp, req') ->
  resp_Body resp = Ends body ->
  exists r e log1 log2,
    request c method url contentType data log = Some (r, e, log1)
    /\ request c' method url contentType data log = Some (r, e, log2).
Proof.
  intros T S B D whole.
  assert (B' : request_build c' method url contentType data
               = inl (client, req))
    by (now rewrite <- (request_build_config c c' _ _ _ _ T S)).
  assert (same : forall k : Request,
             (if curl k || curlHeader k
              then snd (httputil_DumpResponse resp) else resp) = resp).
  { intros k. destruct (curl k || curlHeader k); [|reflexivity].
    unfold httputil_DumpResponse. rewrite whole. cbn.
    now apply with_Body_same. }
  rewrite (request_responded _ _ _ _ _ log _ _ _ _ B D),
    (request_responded _ _ _ _ _ log _ _ _ _ B' D).
  destruct (request_trace_log c _ _ _ _ _ _ resp log B) as (log1 & T1 & _).
  destruct (request_trace_log c' _ _ _ _ _ _ resp log B') as (log2 & T2 & _).
  rewrite D in T1, T2. cbn [snd] in T1, T2.
  rewrite same in T1, T2. rewrite T1, T2.
  destruct (IsSuccess (StatusCode resp)); [do 4 eexists; split; reflexivity|].
  rewrite whole. cbn. do 4 eexists; split; reflexivity.
Qed.

(** X12: the timeout and the redirect policy set by the last options
    reach the client unchecked: the client of every request has the
    timeout of the [Timeout] option, whatever its sign, and a redirect
    hook exactly when [SkipRedirects] was given [true]. *)
Theorem options_reach_client (opts : list RequestFunc) (d : Z) (b : bool)
  (method url contentType : string) (data : option Reader)
  (client : http_Client) (req : http_Request) :
  request_build (New (opts ++ [Timeout d; SkipRedirects b]))
    method url contentType data = inl (client, req) ->
  client_Timeout client = d
  /\ CheckRedirect client
     = (if b then Some (errorString "Skip redirects") else None).
Proof.
  intros B. apply request_build_inv in B as (_ & _ & _ & _ & ->).
  unfold New. rewrite fold_left_app. cbn. split; reflexivity.
Qed.

End ResponseFacts.

(** ** The capture buffer of a form body *)

Lemma take_more (a b : nat) (x : string) :
  Str.take a x ++ Str.take b (Str.drop a x) = Str.take (a + b) x.
Proof.
  revert x. induction a as [|a IH]; intros x; [reflexivity|].
  destruct x as [|y x]; cbn; [now destruct b | now rewrite IH].
Qed.

Lemma take_length_take (n : nat) (x : string) :
  Str.take (String.length (Str.take n x)) x = Str.take n x.
Proof.
  revert x. induction n as [|n IH]; intros [|y x]; cbn; try reflexivity.
  now rewrite IH.
Qed.

(** Whatever the transport does, a [strings.Reader] hands it a stretch of
    the string that starts at the read index. *)
Lemma serve_direct_strings_Reader (s : string) (t : RoundTrip) :
  forall (i : nat) (sent : string),
  exists res j,
    serve_direct t (strings_Reader_at s i) sent
    = (res, strings_Reader_at s (i + j),
       sent ++ Str.take j (Str.drop i s)).
Proof.
  induction t as [resp|err|n k IH]; intros i sent.
  - exists (inl resp), 0%nat. cbn.
    now rewrite Nat.add_0_r, StrFacts.app_nil_r.
  - exists (inr err), 0%nat. cbn.
    now rewrite Nat.add_0_r, StrFacts.app_nil_r.
  - cbn [serve_direct]. unfold Read.
    cbn [reader_step reader_now reader_state strings_Reader_at].
    unfold strings_Reader_Read at 1.
    destruct (String.length s <=? i)%nat.
    + destruct (IH "" (Some EOF) i sent) as (res & j & E).
      exists res, j. rewrite StrFacts.app_nil_r. exact E.
    + set (p := Str.take n (Str.drop i s)).
      destruct (IH p None (i + String.length p)%nat (sent ++ p))
        as (res & j & E).
      exists res, (String.length p + j)%nat.
      etransitivity; [exact E|].
      rewrite Nat.add_assoc, StrFacts.app_assoc. do 2 f_equal.
      rewrite StrFacts.drop_drop, <- take_more. f_equal.
      unfold p. symmetry. apply take_length_take.
Qed.

Section CaptureFacts.

Context {P : Platform}.

(** X14: when the body of a request is a string, as it is for [Post] and
    [Put], the capture buffer after the transport call is a prefix of
    that string, whatever the transport read and whether it failed: the
    trace can show less than the body, never other bytes. *)
Theorem capture_is_prefix (c : Request) (method url contentType : string)
  (s : string) (client : http_Client) (req : http_Request) :
  request_build c method url contentType (Some (strings_NewReader s))
  = inl (client, req) ->
  exists rest, s = capture (snd (client_Do client req)) ++ rest.
Proof.
  intros B. apply request_build_inv in B as (_ & _ & _ & Bd & _).
  cbn in Bd. unfold client_Do. rewrite Bd.
  unfold io_TeeReader. rewrite serve_tee.
  unfold strings_NewReader.
  destruct (serve_direct_strings_Reader s
              (transport client (Method req) (req_URL req)
                 (req_Header req) true) 0 "") as (res & j & E).
  rewrite E. cbn [snd capture req_Body tee_w Str.drop append].
  exists (Str.drop (String.length (Str.take j s)) s).
  symmetry. apply StrFacts.take_drop.
Qed.

End CaptureFacts.

Lemma capture_is_prefix_witness :
  exists rest,
    "a=1&b=2"
    = capture (snd (client_Do Demo.following
                      (Demo.post_form "http://films.test/hello"))) ++ rest.
Proof.
  apply (capture_is_prefix (P := Demo.platform) Demo.quiet "POST"
           "http://films.test/hello" URLEncodededContentType "a=1&b=2"
           Demo.following (Demo.post_form "http://films.test/hello")).
  reflexivity.
Defined.

(** ** The trace record, part by part *)

(** X8: the header loop of the trace uses the first value of each header
    only, so the other values never show; it panics exactly when some
    header has no value at all. *)
Theorem header_clauses_first_value (h : http_Header) (indent : string)
  (buf : Buffer) :
  header_clauses h indent buf
  = header_clauses (map (fun nv => (fst nv, firstn 1 (snd nv))) h) indent buf
  /\ (header_clauses h indent buf = None <-> exists n, In (n, []) h).
Proof.
  revert buf. induction h as [|[n v] h IH]; intros buf.
  - split; [reflexivity|]. split; [discriminate | now intros (n & [])].
  - destruct v as [|v0 v]; cbn [header_clauses map fst snd firstn].
    + split; [reflexivity|]. split; [|reflexivity].
      intros _. exists n. now left.
    + destruct (IH (WriteString
                      (WriteString
                         (WriteString
                            (WriteString
                               (WriteString (WriteString buf indent) "-H'")
                               n) ": ") v0)
                      ("' " ++ BACKSLASH ++ LF))) as (same & none).
      split; [exact same|]. rewrite none. split.
      * intros (m & I). exists m. now right.
      * intros (m & [I|I]); [discriminate | now exists m].
Qed.

Section RecordFacts.

Context {P : Platform}.

(** The data clause of the trace. *)
Lemma logger_parts (c : Request) (r : http_Request) (resp : Response)
  (data : option Stream) (log : list string) (buf : Buffer) :
  curl c || curlHeader c = true ->
  header_clauses (req_Header r) "    " (curl_command c (Method r))
  = Some buf ->
  exists clause,
    (match data with
     | Some (Ends b) =>
         if b =? "" then clause = ""
         else clause = "    -d'" ++ strings_TrimSpace b ++ "' "
                       ++ BACKSLASH ++ LF
     | _ => clause = ""
     end)
    /\ logger c r resp data log
       = Some (snd (httputil_DumpResponse resp),
               (List.app log
                [let base := buf ++ clause ++ "    " ++ DQUOTE
                             ++ URL_String (req_URL r) ++ DQUOTE in
                 match fst (httputil_DumpResponse resp) with
                 | inl dump =>
                     match bytes_SplitN dump (CRLF ++ CRLF) 2 with
                     | header :: body :: _ =>
                         base ++ LF ++ LF
                         ++ (if curlHeader c then header ++ LF ++ LF
                             else Proto resp ++ " " ++ Status resp ++ LF)
                         ++ (match json_Indent body "" "   " with
                             | (_, Some _) => body
                             | (json, None) => json
                             end) ++ LF
                     | _ => base
                     end
                 | inr _ => base
                 end])).
Proof.
  intros on H. unfold logger.
  replace (negb (curl c) && negb (curlHeader c)) with false
    by (destruct (curl c), (curlHeader c); cbn in *; congruence).
  change (strings_Repeat " " 4) with "    ". rewrite H.
  destruct (DumpResponse_fields resp) as (Pr & St & _).
  destruct (httputil_DumpResponse resp) as [dump resp2]. cbn [fst snd] in *.
  assert (tail : forall clause,
             Some (resp2,
                   (List.app log
                    [match dump with
                     | inl dump =>
                         match bytes_SplitN dump (CRLF ++ CRLF) 2 with
                         | header :: body :: _ =>
                             response_trace c resp2 header body
                               (WriteString
                                  (WriteString
                                     (WriteString
                                        (WriteString (buf ++ clause) "    ")
                                        DQUOTE)
                                     (URL_String (req_URL r))) DQUOTE)
                         | _ =>
                             WriteString
                               (WriteString
                                  (WriteString
                                     (WriteString (buf ++ clause) "    ")
                                     DQUOTE)
                                  (URL_String (req_URL r))) DQUOTE
                         end
                     | inr _ =>
                         WriteString
                           (WriteString
                              (WriteString
                                 (WriteString (buf ++ clause) "    ") DQUOTE)
                              (URL_String (req_URL r))) DQUOTE
                     end]))
             = Some (resp2,
                     (List.app log
                      [let base := buf ++ clause ++ "    " ++ DQUOTE
                                   ++ URL_String (req_URL r) ++ DQUOTE in
                       match dump with
                       | inl dump =>
                           match bytes_SplitN dump (CRLF ++ CRLF) 2 with
                           | header :: body :: _ =>
                               base ++ LF ++ LF
                               ++ (if curlHeader c then header ++ LF ++ LF
                                   else Proto resp ++ " " ++ Status resp
                                        ++ LF)
                               ++ (match json_Indent body "" "   " with
                                   | (_, Some _) => body
                                   | (json, None) => json
                                   end) ++ LF
                           | _ => base
                           end
                       | inr _ => base
                       end]))).
  { intros clause. cbn zeta. do 3 f_equal.
    unfold response_trace, indentJSON, WriteString. rewrite Pr, St.
    destruct dump as [dump|e]; [|now rewrite !StrFacts.app_assoc].
    destruct (bytes_SplitN dump (CRLF ++ CRLF) 2) as [|header [|body rest]];
      try now rewrite !StrFacts.app_assoc.
    destruct (json_Indent body "" "   ") as [json [e|]];
      destruct (curlHeader c); now rewrite !StrFacts.app_assoc. }
  destruct data as [[b|b e rest]|]; cbn [ioutil_ReadAll].
  - destruct (b =? "") eqn:empty.
    + exists "". split; [reflexivity|].
      rewrite <- tail, StrFacts.app_nil_r. reflexivity.
    + eexists. split; [reflexivity|].
      rewrite <- tail. unfold WriteString. now rewrite !StrFacts.app_assoc.
  - exists "". split; [reflexivity|].
    rewrite <- tail, StrFacts.app_nil_r. reflexivity.
  - exists "". split; [reflexivity|].
    rewrite <- tail, StrFacts.app_nil_r. reflexivity.
Qed.

End RecordFacts.

Lemma header_clauses_total (h : http_Header) (indent : string) (buf : Buffer) :
  (forall n, ~ In (n, []) h) ->
  exists buf', header_clauses h indent buf = Some buf'.
Proof.
  revert buf. induction h as [|[n v] h IH]; intros buf valued.
  - now exists buf.
  - destruct v as [|v0 v]; [destruct (valued n); now left|].
    cbn [header_clauses]. apply IH. intros m I. apply (valued m). now right.
Qed.

Section TraceRecord.

Context {P : Platform}.


(** X10: a response that cannot be dumped, or whose dump has no blank
    line, does not stop the trace: the record is logged and ends with the
    quoted URL. *)
Theorem logger_without_response_part (c : Request) (r : http_Request)
  (resp : Response) (data : option Stream) (log : list string) :
  curl c || curlHeader c = true ->
  (forall n, ~ In (n, []) (req_Header r)) ->
  (forall dump,
      fst (httputil_DumpResponse resp) = inl dump ->
      bytes_Index dump (CRLF ++ CRLF) = None) ->
  exists before,
    logger c r resp data log
    = Some (snd (httputil_DumpResponse resp),
            List.app log
              [before ++ DQUOTE ++ URL_String (req_URL r) ++ DQUOTE]).
Proof.
  intros on valued unsplit.
  destruct (header_clauses_total (req_Header r) "    "
              (curl_command c (Method r)) valued) as (buf & H).
  destruct (logger_parts c r resp data log buf on H) as (clause & _ & L).
  rewrite L. cbn zeta. exists (buf ++ clause ++ "    ").
  destruct (fst (httputil_DumpResponse resp)) as [dump|e].
  - cbn [bytes_SplitN]. rewrite (unsplit dump eq_refl).
    now rewrite !StrFacts.app_assoc.
  - now rewrite !StrFacts.app_assoc.
Qed.

(** X11: the trace has a data clause exactly for captured bytes that are
    not empty: it then holds them with the white space at both ends
    trimmed, on the line before the quoted URL.  An empty capture buffer
    and one that fails to read are traced like no buffer at all. *)
Theorem logger_data_clause (c : Request) (r : http_Request)
  (resp : Response) (log : list string) :
  (forall b,
      b <> "" ->
      curl c || curlHeader c = true ->
      (forall n, ~ In (n, []) (req_Header r)) ->
      exists before after,
        logger c r resp (Some (Ends b)) log
        = Some (snd (httputil_DumpResponse resp),
                List.app log
                  [before ++ "    -d'" ++ strings_TrimSpace b ++ "' "
                   ++ BACKSLASH ++ LF ++ "    " ++ DQUOTE
                   ++ URL_String (req_URL r) ++ DQUOTE ++ after]))
  /\ logger c r resp (Some (Ends "")) log = logger c r resp None log
  /\ (forall b e rest,
         logger c r resp (Some (Breaks b e rest)) log
         = logger c r resp None log).
Proof.
  split; [|split].
  - intros b filled on valued.
    destruct (header_clauses_total (req_Header r) "    "
                (curl_command c (Method r)) valued) as (buf & H).
    destruct (logger_parts c r resp (Some (Ends b)) log buf on H)
      as (clause & C & L).
    replace (b =? "") with false in C
      by (symmetry; now apply String.eqb_neq).
    subst clause. rewrite L. cbn zeta. exists buf.
    destruct (fst (httputil_DumpResponse resp)) as [dump|e].
    + destruct (bytes_SplitN dump (CRLF ++ CRLF) 2)
        as [|header [|body rest]].
      * exists "". now rewrite !StrFacts.app_assoc, StrFacts.app_nil_r.
      * exists "". now rewrite !StrFacts.app_assoc, StrFacts.app_nil_r.
      * exists (LF ++ LF
                ++ (if curlHeader c then header ++ LF ++ LF
                    else Proto resp ++ " " ++ Status resp ++ LF)
                ++ (match json_Indent body "" "   " with
                    | (_, Some _) => body
                    | (json, None) => json
                    end) ++ LF).
        now rewrite !StrFacts.app_assoc.
    + exists "". now rewrite !StrFacts.app_assoc, StrFacts.app_nil_r.
  - reflexivity.
  - reflexivity.
Qed.

End TraceRecord.

(** ** The further properties on the demo platform *)

Lemma request_outcome_exclusive_witness :
  (exists resp,
      Some (Demo.answer 200 "200 OK" (Ends Demo.x_is_1)) = Some resp
      /\ @None error = None /\ IsSuccess (StatusCode resp) = true)
  \/ (exists err,
         Some (Demo.answer 200 "200 OK" (Ends Demo.x_is_1)) = None
         /\ @None error = Some err).
Proof.
  apply (request_outcome_exclusive (P := Demo.platform) Demo.quiet "GET"
           "http://films.test/x" "" None [] []
           (Some (Demo.answer 200 "200 OK" (Ends Demo.x_is_1))) None).
  reflexivity.
Defined.

Lemma request_traces_once_witness :
  exists r e log',
    request (P := Demo.platform) Demo.tracing "GET"
      "http://films.test/missing" "" None []
    = Some (r, e, log')
    /\ exists record, log' = [record].
Proof.
  destruct (request_traces_once (P := Demo.platform) Demo.tracing "GET"
              "http://films.test/missing" "" None []) as (_ & _ & traced).
  apply (traced Demo.following (Demo.get_of "http://films.test/missing")
           (Demo.get_of "http://films.test/missing") Demo.missing);
    reflexivity.
Defined.

Lemma request_success_response_witness :
  exists resp' log',
    request (P := Demo.platform) Demo.tracing "GET"
      "http://films.test/x" "" None []
    = Some (Some resp', None, log')
    /\ resp' = Demo.answer 200 "200 OK" (Ends Demo.x_is_1).
Proof.
  destruct (request_success_response (P := Demo.platform) Demo.tracing "GET"
              "http://films.test/x" "" None [] Demo.following
              (Demo.get_of "http://films.test/x")
              (Demo.get_of "http://films.test/x")
              (Demo.answer 200 "200 OK" (Ends Demo.x_is_1))
              eq_refl eq_refl eq_refl)
    as (resp' & log' & R & _ & _ & _ & _ & _ & whole & _).
  exists resp', log'. split; [exact R|].
  apply (whole Demo.x_is_1). reflexivity.
Defined.

Lemma tracing_keeps_result_witness :
  exists r e log1 log2,
    request (P := Demo.platform) Demo.quiet "GET"
      "http://films.test/missing" "" None []
    = Some (r, e, log1)
    /\ request (P := Demo.platform) Demo.tracing "GET"
         "http://films.test/missing" "" None []
       = Some (r, e, log2).
Proof.
  apply (tracing_keeps_result (P := Demo.platform) Demo.quiet Demo.tracing
           "GET" "http://films.test/missing" "" None [] Demo.following
           (Demo.get_of "http://films.test/missing")
           (Demo.get_of "http://films.test/missing")
           Demo.missing "not found"); reflexivity.
Defined.

Lemma options_reach_client_witness :
  client_Timeout
    {| client_Timeout := -5;
       CheckRedirect := Some (errorString "Skip redirects") |} = (-5)%Z
  /\ CheckRedirect
       {| client_Timeout := -5;
          CheckRedirect := Some (errorString "Skip redirects") |}
     = Some (errorString "Skip redirects").
Proof.
  apply (options_reach_client (P := Demo.platform) [Curl true] (-5) true
           "GET" "http://films.test/x" "" None
           {| client_Timeout := -5;
              CheckRedirect := Some (errorString "Skip redirects") |}
           (Demo.get_of "http://films.test/x")).
  reflexivity.
Defined.


Lemma logger_without_response_part_witness :
  exists before,
    logger (P := Demo.platform) Demo.tracing
      (Demo.get_of "http://films.test/broken") Demo.broken
      (Some (Ends "")) []
    = Some (Demo.answer 500 "500 Internal Server Error"
              (Breaks "" Demo.cut_short (Ends "")),
            [before ++ DQUOTE ++ "http://films.test/broken" ++ DQUOTE]).
Proof.
  apply (logger_without_response_part (P := Demo.platform) Demo.tracing
           (Demo.get_of "http://films.test/broken") Demo.broken
           (Some (Ends "")) []).
  - reflexivity.
  - intros n [].
  - intros dump; discriminate.
Defined.

Lemma logger_data_clause_witness :
  exists before after,
    logger (P := Demo.platform) Demo.tracing
      (Demo.post_form "http://films.test/hello")
      (Demo.answer 200 "200 OK" (Ends "hello")) (Some (Ends " a=1&b=2 ")) []
    = Some (Demo.answer 200 "200 OK" (Ends "hello"),
            [before ++ "    -d'a=1&b=2' " ++ BACKSLASH ++ LF ++ "    "
             ++ DQUOTE ++ "http://films.test/hello" ++ DQUOTE ++ after]).
Proof.
  destruct (logger_data_clause (P := Demo.platform) Demo.tracing
              (Demo.post_form "http://films.test/hello")
              (Demo.answer 200 "200 OK" (Ends "hello")) []) as (clause & _).
  apply (clause " a=1&b=2 ").
  - discriminate.
  - reflexivity.
  - intros n [H|[]]. discriminate.
Defined.

(** ** The command line of a traced request *)

Section CommandFacts.

Context {P : Platform}.

(** The record a traced request logs: the command and the header
    clauses, the data clause of the capture buffer, the quoted URL, and
    the response part. *)
Lemma request_record (c : Request) (method url contentType : string)
  (data : option Reader) (log : list string) (client : http_Client)
  (req req' : http_Request) (resp : Response) :
  curl c || curlHeader c = true ->
  request_build c method url contentType data = inl (client, req) ->
  client_Do client req = (inl resp, req') ->
  exists buf r e after,
    header_clauses (req_Header req) "    " (curl_command c (Method req))
    = Some buf
    /\ request c method url contentType data log
       = Some (r, e,
               List.app log
                 [buf
                  ++ (if capture req' =? "" then ""
                      else "    -d'" ++ strings_TrimSpace (capture req')
                           ++ "' " ++ BACKSLASH ++ LF)
                  ++ "    " ++ DQUOTE ++ URL_String (req_URL req) ++ DQUOTE
                  ++ after]).
Proof.
  intros on B D.
  pose proof (request_build_inv _ _ _ _ _ _ _ B) as (_ & _ & H & _).
  assert (same : req_Header req' = req_Header req
                 /\ Method req' = Method req /\ req_URL req' = req_URL req).
  { revert D. unfold client_Do.
    destruct (serve _ _ _) as [[res body'] sent]. intros [= _ <-].
    repeat split. }
  destruct same as (Hh & Hm & Hu).
  destruct (header_clauses (req_Header req) "    "
              (curl_command c (Method req))) as [buf|] eqn:Hc;
    [|rewrite H in Hc; now destruct (header_clauses_built contentType "    "
                                       (curl_command c (Method req)))].
  rewrite <- Hh, <- Hm in Hc.
  destruct (logger_parts c req' resp (Some (Ends (capture req'))) log buf
              on Hc) as (clause & C & L).
  rewrite (request_responded _ _ _ _ _ log _ _ _ _ B D).
  unfold request_trace. rewrite on, L, Hu.
  assert (Cl : clause = (if capture req' =? "" then ""
                         else "    -d'" ++ strings_TrimSpace (capture req')
                              ++ "' " ++ BACKSLASH ++ LF))
    by (destruct (capture req' =? ""); exact C).
  rewrite <- Cl.
  set (after :=
         match fst (httputil_DumpResponse resp) with
         | inl dump =>
             match bytes_SplitN dump (CRLF ++ CRLF) 2 with
             | header :: body :: _ =>
                 LF ++ LF
                 ++ (if curlHeader c then header ++ LF ++ LF
                     else Proto resp ++ " " ++ Status resp ++ LF)
                 ++ (match json_Indent body "" "   " with
                     | (_, Some _) => body
                     | (json, None) => json
                     end) ++ LF
             | _ => ""
             end
         | inr _ => ""
         end).
  assert (R : (let base := buf ++ clause ++ "    " ++ DQUOTE
                           ++ URL_String (req_URL req) ++ DQUOTE in
               match fst (httputil_DumpResponse resp) with
               | inl dump =>
                   match bytes_SplitN dump (CRLF ++ CRLF) 2 with
                   | header :: body :: _ =>
                       base ++ LF ++ LF
                       ++ (if curlHeader c then header ++ LF ++ LF
                           else Proto resp ++ " " ++ Status resp ++ LF)
                       ++ (match json_Indent body "" "   " with
                           | (_, Some _) => body
                           | (json, None) => json
                           end) ++ LF
                   | _ => base
                   end
               | inr _ => base
               end)
              = buf ++ clause ++ "    " ++ DQUOTE
                ++ URL_String (req_URL req) ++ DQUOTE ++ after).
  { cbn zeta. unfold after.
    destruct (fst (httputil_DumpResponse resp)) as [dump|err];
      [|now rewrite ?StrFacts.app_assoc, ?StrFacts.app_nil_r].
    destruct (bytes_SplitN dump (CRLF ++ CRLF) 2) as [|header [|body rest]];
      rewrite ?StrFacts.app_assoc, ?StrFacts.app_nil_r; reflexivity. }
  rewrite R. exists buf.
  destruct (IsSuccess _); [do 3 eexists; split; reflexivity|].
  destruct (ioutil_ReadAll _) as [[body [err|]] rest];
    do 3 eexists; split; reflexivity.
Qed.

(** X15: a traced request that sent a body shows in its record what the
    capture buffer holds after the transport call, trimmed, in a data
    clause right before the quoted URL; this holds for every status. *)
Theorem request_traces_capture (c : Request)
  (method url contentType : string) (data : option Reader)
  (log : list string) (client : http_Client) (req req' : http_Request)
  (resp : Response) :
  curl c || curlHeader c = true ->
  request_build c method url contentType data = inl (client, req) ->
  client_Do client req = (inl resp, req') ->
  capture req' <> "" ->
  exists r e before after,
    request c method url contentType data log
    = Some (r, e,
            List.app log
              [before ++ "    -d'" ++ strings_TrimSpace (capture req')
               ++ "' " ++ BACKSLASH ++ LF
               ++ "    " ++ DQUOTE ++ URL_String (req_URL req) ++ DQUOTE
               ++ after]).
Proof.
  intros on B D filled.
  destruct (request_record c _ _ _ _ log _ _ _ _ on B D)
    as (buf & r & e & after & _ & R).
  replace (capture req' =? "") with false in R
    by (symmetry; now apply String.eqb_neq).
  exists r, e, buf, after. rewrite R. now rewrite !StrFacts.app_assoc.
Qed.

(** X16: the record of a traced request without content type and without
    body, as [Get], [Head] and [Delete] make it, begins with the command
    line and goes straight on to the quoted URL: no header clause, no
    data clause. *)
Theorem bodiless_trace (c : Request) (method url : string)
  (log : list string) (client : http_Client) (req req' : http_Request)
  (resp : Response) :
  curl c || curlHeader c = true ->
  request_build c method url "" None = inl (client, req) ->
  client_Do client req = (inl resp, req') ->
  exists r e after,
    request c method url "" None log
    = Some (r, e,
            List.app log
              [curl_command c (Method req) ++ "    " ++ DQUOTE
               ++ URL_String (req_URL req) ++ DQUOTE ++ after]).
Proof.
  intros on B D.
  destruct (request_record c _ _ _ _ log _ _ _ _ on B D)
    as (buf & r & e & after & Hc & R).
  pose proof (request_build_inv _ _ _ _ _ _ _ B) as (_ & _ & H & Bd & _).
  cbn in H, Bd. rewrite H in Hc. cbn in Hc. injection Hc as <-.
  assert (empty : capture req' = "").
  { revert D. unfold client_Do. rewrite Bd.
    pose proof (serve_no_body
                  (transport client (Method req) (req_URL req)
                     (req_Header req) false) "") as N.
    destruct (serve _ None "") as [[res body'] sent]. cbn in N. subst body'.
    now intros [= _ <-]. }
  rewrite empty in R. cbn in R. exists r, e, after. exact R.
Qed.

End CommandFacts.

Lemma request_traces_capture_witness :
  exists r e before after,
    request (P := Demo.platform) Demo.tracing "POST"
      "http://films.test/missing" URLEncodededContentType
      (Some (strings_NewReader "a=1&b=2")) []
    = Some (r, e,
            [before ++ "    -d'a=1&b=2' " ++ BACKSLASH ++ LF
             ++ "    " ++ DQUOTE ++ "http://films.test/missing" ++ DQUOTE
             ++ after]).
Proof.
  apply (request_traces_capture (P := Demo.platform) Demo.tracing "POST"
           "http://films.test/missing" URLEncodededContentType
           (Some (strings_NewReader "a=1&b=2")) [] Demo.following
           (Demo.post_form "http://films.test/missing")
           (snd (client_Do Demo.following
                   (Demo.post_form "http://films.test/missing")))
           Demo.missing); try reflexivity.
  discriminate.
Defined.

Lemma bodiless_trace_witness :
  exists r e after,
    request (P := Demo.platform) Demo.tracing "DELETE"
      "http://films.test/missing" "" None []
    = Some (r, e,
            [LF ++ "curl -sS -XDELETE " ++ BACKSLASH ++ LF ++ "    "
             ++ DQUOTE ++ "http://films.test/missing" ++ DQUOTE ++ after]).
Proof.
  apply (bodiless_trace (P := Demo.platform) Demo.tracing "DELETE"
           "http://films.test/missing" [] Demo.following
           (@mk_http_Request Demo.platform "DELETE"
              "http://films.test/missing" [] None)
           (@mk_http_Request Demo.platform "DELETE"
              "http://films.test/missing" [] None)
           Demo.missing); reflexivity.
Defined.
